(** * BelugaDB front end: the execution session of [App.tsx]

    A shallow embedding of the part of the React front end that runs one
    SQL script against the checked databases of a connection:
    the validation and dispatch done by [handleExecute], the per-database
    status list kept by the [ExecutionScreen] component and updated by its
    [execution-status-update] listener, and the two ways back to the query
    screen ([handleReturnSelectPrevious], [handleReturnSelectErrors]).

    The repository holds two snapshots of [App.tsx].  The top level of this
    file follows the later one (statement results as a list, query history,
    stop-on-error); module [V1] follows the earlier one where it differs. *)

From Stdlib Require Import NArith ZArith String Ascii.
From Stdlib Require Import DecimalString DecimalNat.
From stdpp Require Import base decidable option list gmap sets.

Local Open Scope N_scope.

(** ** JavaScript strings

    A JavaScript string is a sequence of UTF-16 code units.  Only equality
    ([===]), truthiness and [String.prototype.trim] are used by the code. *)

Abbreviation jsstring := (list N).

(** Code units of an ASCII literal. *)
Fixpoint js (s : string) : jsstring :=
  match s with
  | EmptyString => []
  | String a s' => N_of_ascii a :: js s'
  end.

(** ECMAScript [WhiteSpace] and [LineTerminator] code points, the ones
    [trim] strips: TAB, LF, VT, FF, CR, SP, NBSP, U+1680, U+2000..U+200A,
    LS, PS, U+202F, U+205F, U+3000 and the byte-order mark U+FEFF. *)
Definition isWhiteSpace (c : N) : bool :=
  (9 <=? c) && (c <=? 13)
  || (c =? 32) || (c =? 160) || (c =? 5760)
  || (8192 <=? c) && (c <=? 8202)
  || (c =? 8232) || (c =? 8233) || (c =? 8239) || (c =? 8287)
  || (c =? 12288) || (c =? 65279).

Fixpoint trimStart (s : jsstring) : jsstring :=
  match s with
  | c :: s' => if isWhiteSpace c then trimStart s' else s
  | [] => []
  end.

Definition trimEnd (s : jsstring) : jsstring := rev (trimStart (rev s)).

Definition trim (s : jsstring) : jsstring := trimEnd (trimStart s).

(** A string is truthy unless it is empty. *)
Definition truthy (s : jsstring) : bool :=
  match s with
  | [] => false
  | _ :: _ => true
  end.

(** ** Types of [App.tsx] *)

(** ['connections' | 'query' | 'execution']; the suffix keeps the names
    apart from the state variables [connections] and [query]. *)
Inductive Screen := connections_screen | query_screen | execution_screen.

Inductive SaveOption := single | separate | none.

Record Connection := {
  conn_id : jsstring;
  conn_name : jsstring;
  host : jsstring;
  port : jsstring;
  user : jsstring;
  pass : jsstring;
  savePass : bool
}.

Inductive ExecutionStatus := waiting | success | error.

Record QueryResult := {
  headers : list jsstring;
  rows : list (list jsstring)
}.

(** The tagged union [ExecutionResult]; the constructor is the [type] tag,
    its argument the [payload]. *)
Inductive ExecutionResult :=
| select_result (payload : QueryResult)
| mutation_result (affectedRows : Z)
| error_result (payload : jsstring).

Record DatabaseStatus := {
  name : jsstring;
  status : ExecutionStatus;
  log : option jsstring;
  results : list ExecutionResult
}.

(** An element of the [databases] state of [App]. *)
Record Database := {
  db_id : jsstring;
  db_name : jsstring;
  checked : bool;
  db_status : Z
}.

Global Instance ExecutionStatus_eq_dec : EqDecision ExecutionStatus.
Proof. solve_decision. Defined.

Global Instance Screen_eq_dec : EqDecision Screen.
Proof. solve_decision. Defined.

(** [success] and [error] are the terminal phases. *)
Definition isTerminal (s : ExecutionStatus) : bool :=
  match s with
  | waiting => false
  | success | error => true
  end.

(** ** The [ExecutionScreen] status list *)

(** [databases.map(name => ({ name, status: 'waiting', log: undefined,
    results: [] }))], the initial value of the [results] state and the
    value the effect resets it to. *)
Definition initialResults (databases : list jsstring) : list DatabaseStatus :=
  (fun name =>
     {| name := name; status := waiting; log := None; results := [] |})
    <$> databases.

(** The state update made by the [execution-status-update] listener:
    [prevResults.map(res => res.name === event.payload.name
                              ? event.payload : res)]. *)
Definition applyStatusUpdate (payload : DatabaseStatus)
    (prevResults : list DatabaseStatus) : list DatabaseStatus :=
  (fun res => if decide (name res = name payload) then payload else res)
    <$> prevResults.

(** The status list after a sequence of updates, first to last. *)
Definition applyStatusUpdates (ps : list DatabaseStatus)
    (s : list DatabaseStatus) : list DatabaseStatus :=
  foldl (fun acc p => applyStatusUpdate p acc) s ps.

(** The same replacement over any record with a name, shared by both
    snapshots of the listener. *)
Section ReplaceByName.
Context {A : Type} (key : A -> jsstring).

Definition replaceByName (payload : A) (prev : list A) : list A :=
  (fun res => if decide (key res = key payload) then payload else res)
    <$> prev.
End ReplaceByName.

(** ** Calls that leave the front end

    [invoke] sends a command to the Tauri back end, [listen] subscribes to
    one of its event channels and the function it resolves to unsubscribes;
    [setTimeout] is used by the notification banner.  A handler returns the
    calls it made, in program order.  A rejected [invoke] reaches its
    [.catch] callback in a later task; those callbacks and the console
    output of the earlier snapshot are left out. *)

Inductive command :=
| add_query_to_history (queryText connectionName statusText : jsstring)
| execute_query_on_databases (connection : Connection)
    (databases : list jsstring) (query : jsstring)
    (saveOption : SaveOption) (stopOnError : bool).

Inductive effect (C : Type) :=
| Invoke (c : C)
| Listen (channel : jsstring)
| Unlisten (channel : jsstring)
| SetTimeout (ms : N).

Arguments Invoke {C} c.
Arguments Listen {C} channel.
Arguments Unlisten {C} channel.
Arguments SetTimeout {C} ms.

(** The commands sent to the back end among a list of calls. *)
Definition invocations {C} (es : list (effect C)) : list C :=
  omap (fun e => match e with Invoke c => Some c | _ => None end) es.

Definition statusChannel : jsstring := js "execution-status-update".

(** State and calls threaded through a handler body. *)
Definition handler (S C : Type) := S -> S * list (effect C).

Definition skip {S C} : handler S C := fun st => (st, []).

Definition emit {S C} (e : effect C) : handler S C := fun st => (st, [e]).

Definition andThen {S C} (h k : handler S C) : handler S C :=
  fun st =>
    let '(st1, e1) := h st in
    let '(st2, e2) := k st1 in
    (st2, e1 ++ e2).

Declare Scope handler_scope.
Delimit Scope handler_scope with handler.
Notation "h ;; k" := (andThen h k)
  (at level 100, k at level 200, right associativity) : handler_scope.

(** ** State of [App]

    The state variables read or written by the handlers below, with the
    [notification] of [NotificationContext].  The flags of the connection
    dialogs and of the database loader are touched by none of them.  [R] is
    the snapshot's [DatabaseStatus]; in the earlier snapshot [query] is a
    state variable of [QueryScreen]. *)

Record AppState (R : Type) := {
  screen : Screen;
  connections : list Connection;
  databases : list Database;
  selectedConnectionId : option jsstring;
  executionData : option (jsstring * list jsstring);
  isReturnModalOpen : bool;
  lastExecutionResults : option (list R);
  query : jsstring;
  notification : option jsstring
}.

Arguments screen {R} a.
Arguments connections {R} a.
Arguments databases {R} a.
Arguments selectedConnectionId {R} a.
Arguments executionData {R} a.
Arguments isReturnModalOpen {R} a.
Arguments lastExecutionResults {R} a.
Arguments query {R} a.
Arguments notification {R} a.

Definition setScreen {R C} (v : Screen) : handler (AppState R) C := fun st =>
  ({| screen := v; connections := connections st; databases := databases st;
      selectedConnectionId := selectedConnectionId st;
      executionData := executionData st;
      isReturnModalOpen := isReturnModalOpen st;
      lastExecutionResults := lastExecutionResults st;
      query := query st; notification := notification st |}, []).

Definition setDatabases {R C} (f : list Database -> list Database)
    : handler (AppState R) C := fun st =>
  ({| screen := screen st; connections := connections st;
      databases := f (databases st);
      selectedConnectionId := selectedConnectionId st;
      executionData := executionData st;
      isReturnModalOpen := isReturnModalOpen st;
      lastExecutionResults := lastExecutionResults st;
      query := query st; notification := notification st |}, []).

Definition setExecutionData {R C} (v : option (jsstring * list jsstring))
    : handler (AppState R) C := fun st =>
  ({| screen := screen st; connections := connections st;
      databases := databases st;
      selectedConnectionId := selectedConnectionId st;
      executionData := v;
      isReturnModalOpen := isReturnModalOpen st;
      lastExecutionResults := lastExecutionResults st;
      query := query st; notification := notification st |}, []).

Definition setIsReturnModalOpen {R C} (v : bool) : handler (AppState R) C :=
  fun st =>
  ({| screen := screen st; connections := connections st;
      databases := databases st;
      selectedConnectionId := selectedConnectionId st;
      executionData := executionData st;
      isReturnModalOpen := v;
      lastExecutionResults := lastExecutionResults st;
      query := query st; notification := notification st |}, []).

Definition setLastExecutionResults {R C} (v : option (list R))
    : handler (AppState R) C := fun st =>
  ({| screen := screen st; connections := connections st;
      databases := databases st;
      selectedConnectionId := selectedConnectionId st;
      executionData := executionData st;
      isReturnModalOpen := isReturnModalOpen st;
      lastExecutionResults := v;
      query := query st; notification := notification st |}, []).

Definition setNotification {R C} (v : option jsstring)
    : handler (AppState R) C := fun st =>
  ({| screen := screen st; connections := connections st;
      databases := databases st;
      selectedConnectionId := selectedConnectionId st;
      executionData := executionData st;
      isReturnModalOpen := isReturnModalOpen st;
      lastExecutionResults := lastExecutionResults st;
      query := query st; notification := v |}, []).

(** [NotificationContext.tsx]: the banner is set, and cleared by a timer
    three seconds later. *)
Definition showNotification {R C} (message : jsstring)
    : handler (AppState R) C :=
  (setNotification (Some message) ;; emit (SetTimeout 3000))%handler.

Definition clearNotification {R C} : handler (AppState R) C :=
  setNotification None.

(** [connections.find(c => c.id === selectedConnectionId)]; no connection
    has the id [null]. *)
Definition selectedConnection {R} (st : AppState R) : option Connection :=
  match selectedConnectionId st with
  | Some i => List.find (fun c => bool_decide (conn_id c = i)) (connections st)
  | None => None
  end.

(** ** Handlers of [App] *)

(** "Erro: Verifique a conexão, bancos de dados e a query." *)
Definition checkInputsMessage : jsstring :=
  js "Erro: Verifique a conex" ++ [227] ++ js "o, bancos de dados e a query.".

Definition handleExecute (query : jsstring) (databases : list jsstring)
    (saveOption : SaveOption) (stopOnError : bool)
    : handler (AppState DatabaseStatus) command := fun st =>
  match selectedConnection st with
  | None => showNotification checkInputsMessage st
  | Some connection =>
      if (length databases =? 0)%nat || negb (truthy (trim query))
      then showNotification checkInputsMessage st
      else
        (emit (Invoke (add_query_to_history query (conn_name connection)
                         (js "executed"))) ;;
         emit (Invoke (execute_query_on_databases connection databases query
                         saveOption stopOnError)) ;;
         setExecutionData (Some (query, databases)) ;;
         setScreen execution_screen)%handler st
  end.

(** [QueryScreen]: the checked databases, by name, are what is executed. *)
Definition selectedDbs (dbs : list Database) : list jsstring :=
  db_name <$> filter (fun db => checked db = true) dbs.

Definition handleSaveOptionSelect (saveOption : SaveOption)
    (stopOnErrorFlag : bool)
    : handler (AppState DatabaseStatus) command := fun st =>
  handleExecute (query st) (selectedDbs (databases st)) saveOption
    stopOnErrorFlag st.

Definition handleBackFromExecution (rs : list DatabaseStatus)
    : handler (AppState DatabaseStatus) command :=
  (setLastExecutionResults (Some rs) ;; setIsReturnModalOpen true)%handler.

Definition handleReturnSelectPrevious {R C} : handler (AppState R) C :=
  (setIsReturnModalOpen false ;; setScreen query_screen)%handler.

(** [new Set(lastExecutionResults.filter(r => r.status === 'error')
                                  .map(r => r.name))]. *)
Definition errorDbNames (rs : list DatabaseStatus) : gset jsstring :=
  list_to_set (name <$> filter (fun r => status r = error) rs).

(** [{ ...db, checked: errorDbNames.has(db.name) }]. *)
Definition checkIfError (errs : gset jsstring) (db : Database) : Database :=
  {| db_id := db_id db; db_name := db_name db;
     checked := bool_decide (db_name db ∈ errs);
     db_status := db_status db |}.

Definition handleReturnSelectErrors
    : handler (AppState DatabaseStatus) command :=
  ((fun st =>
      match lastExecutionResults st with
      | Some rs => setDatabases (fmap (checkIfError (errorDbNames rs))) st
      | None => skip st
      end) ;;
   setIsReturnModalOpen false ;;
   setScreen query_screen)%handler.

Definition handleReturnCancel {R C} : handler (AppState R) C :=
  setIsReturnModalOpen false.

(** The names checked for the next execution. *)
Definition checkedNames (dbs : list Database) : gset jsstring :=
  list_to_set (selectedDbs dbs).

(** ** The mounted [ExecutionScreen]

    [App] renders [<ExecutionScreen databases={executionData.databases}/>]
    when [screen === 'execution' && executionData].  The component exists
    from the commit that first renders it to the commit that no longer
    does; its effect, which subscribes the listener, runs in that first
    commit, and the effect's clean-up, which unsubscribes it, in the last.
    So the listener is subscribed exactly while the component is mounted. *)

Record ExecutionScreenState := {
  es_databases : list jsstring;        (* the [databases] prop *)
  es_results : list DatabaseStatus     (* the [results] state *)
}.

Record World := {
  app : AppState DatabaseStatus;
  view : option ExecutionScreenState
}.

Definition rendersExecutionScreen {R} (st : AppState R)
    : option (list jsstring) :=
  match screen st, executionData st with
  | execution_screen, Some (_, dbs) => Some dbs
  | _, _ => None
  end.

(** [useState] initialiser, then the effect body: reset of [results] and
    [listen]. *)
Definition mountExecutionScreen (dbs : list jsstring)
    : ExecutionScreenState :=
  {| es_databases := dbs; es_results := initialResults dbs |}.

(** What a commit does to the [ExecutionScreen] after a handler has run:
    mount with its effect, clean-up and re-run of the effect, unmount.
    The other effects of [App] that run in the same commit are not part of
    it: the database loader (given on its own as [loaderEffect] below) and,
    in the later snapshot, the effects that have [showNotification] among
    their dependencies. *)
Definition commit (w : World) : World * list (effect command) :=
  match rendersExecutionScreen (app w), view w with
  | Some dbs, None =>
      ({| app := app w; view := Some (mountExecutionScreen dbs) |},
       [Listen statusChannel])
  | Some dbs, Some v =>
      if decide (es_databases v = dbs) then (w, [])
      else ({| app := app w; view := Some (mountExecutionScreen dbs) |},
            [Unlisten statusChannel; Listen statusChannel])
  | None, Some _ =>
      ({| app := app w; view := None |}, [Unlisten statusChannel])
  | None, None => (w, [])
  end.

(** The listener's [setResults(prevResults => ...)]. *)
Definition onStatusUpdate (payload : DatabaseStatus)
    (v : ExecutionScreenState) : ExecutionScreenState :=
  {| es_databases := es_databases v;
     es_results := applyStatusUpdate payload (es_results v) |}.

(** ** Events

    What can happen to the front end during a run: the operator picks a
    save option on the query screen (which executes), the back end emits a
    status update, the operator presses "Voltar" on the execution screen
    and then one of the three buttons of the return dialog, the banner
    timer fires. *)

Inductive event :=
| SaveOptionSelected (saveOption : SaveOption) (stopOnErrorFlag : bool)
| StatusUpdate (payload : DatabaseStatus)
| BackClicked
| ReturnSelectPrevious
| ReturnSelectErrors
| ReturnCancel
| NotificationTimeout.

Definition onApp (h : handler (AppState DatabaseStatus) command)
    : handler World command := fun w =>
  let '(st, es) := h (app w) in ({| app := st; view := view w |}, es).

(** The handler an event reaches.  A button that is not rendered cannot be
    pressed, and an update that finds no listener is not delivered.  The
    execute buttons of the query screen are rendered only while the loader
    is idle and has no error; the loader's flags are not part of [World],
    so [SaveOptionSelected] stands for a save option picked while the
    buttons are there.  In the later snapshot that is not the case between
    a return to the query screen and the answer to the reload it causes
    (see [loaderEffect]). *)
Definition handle (ev : event) : handler World command := fun w =>
  match ev with
  | SaveOptionSelected saveOption stopOnErrorFlag =>
      match screen (app w), selectedConnection (app w) with
      | query_screen, Some _ =>
          onApp (handleSaveOptionSelect saveOption stopOnErrorFlag) w
      | _, _ => (w, [])
      end
  | StatusUpdate payload =>
      match view w with
      | Some v =>
          ({| app := app w; view := Some (onStatusUpdate payload v) |}, [])
      | None => (w, [])
      end
  | BackClicked =>
      match view w with
      | Some v => onApp (handleBackFromExecution (es_results v)) w
      | None => (w, [])
      end
  | ReturnSelectPrevious =>
      if isReturnModalOpen (app w) then onApp handleReturnSelectPrevious w
      else (w, [])
  | ReturnSelectErrors =>
      if isReturnModalOpen (app w) then onApp handleReturnSelectErrors w
      else (w, [])
  | ReturnCancel =>
      if isReturnModalOpen (app w) then onApp handleReturnCancel w
      else (w, [])
  | NotificationTimeout => onApp clearNotification w
  end.

(** One event: its handler, then the commit. *)
Definition step (ev : event) : handler World command :=
  (handle ev ;; commit)%handler.

Fixpoint run (evs : list event) : handler World command :=
  match evs with
  | [] => skip
  | ev :: evs' => (step ev ;; run evs')%handler
  end.

(** [onExecute] as the query screen calls it, and the commit after it. *)
Definition dispatch (query : jsstring) (databases : list jsstring)
    (saveOption : SaveOption) (stopOnError : bool)
    : handler World command :=
  (onApp (handleExecute query databases saveOption stopOnError) ;;
   commit)%handler.

(** The status list shown, if the execution screen is. *)
Definition session (w : World) : option (list DatabaseStatus) :=
  es_results <$> view w.

(** The phases shown, in the order of the list. *)
Definition phases (w : World) : option (list ExecutionStatus) :=
  (fun s : list DatabaseStatus => status <$> s) <$> session w.

(** ** The earlier snapshot *)

Module V1.

Record DatabaseStatus := {
  name : jsstring;
  status : ExecutionStatus;
  log : option jsstring;
  result : option QueryResult
}.

Inductive command :=
| execute_query_on_databases (connection : option Connection)
    (databases : list jsstring) (query : jsstring)
    (saveOption : SaveOption).

(** [databases.map(name => ({ name, status: 'waiting',
    log: undefined }))]. *)
Definition initialResults (databases : list jsstring)
    : list DatabaseStatus :=
  (fun name =>
     {| name := name; status := waiting; log := None; result := None |})
    <$> databases.

Definition applyStatusUpdate (payload : DatabaseStatus)
    (prevResults : list DatabaseStatus) : list DatabaseStatus :=
  (fun res => if decide (name res = name payload) then payload else res)
    <$> prevResults.

(** "Erro: Nenhum banco de dados selecionado." *)
Definition noDatabaseMessage : jsstring :=
  js "Erro: Nenhum banco de dados selecionado.".

(** "Erro: A query não pode estar vazia." *)
Definition emptyQueryMessage : jsstring :=
  js "Erro: A query n" ++ [227] ++ js "o pode estar vazia.".

Definition handleExecute (query : jsstring) (databases : list jsstring)
    (saveOption : SaveOption)
    : handler (AppState DatabaseStatus) command := fun st =>
  if (length databases =? 0)%nat
  then showNotification noDatabaseMessage st
  else if negb (truthy (trim query))
  then showNotification emptyQueryMessage st
  else
    (emit (Invoke (execute_query_on_databases (selectedConnection st)
                     databases query saveOption)) ;;
     setExecutionData (Some (query, databases)) ;;
     setScreen execution_screen)%handler st.

Definition errorDbNames (rs : list DatabaseStatus) : gset jsstring :=
  list_to_set (name <$> filter (fun r => status r = error) rs).

Definition handleReturnSelectErrors
    : handler (AppState DatabaseStatus) command :=
  ((fun st =>
      match lastExecutionResults st with
      | Some rs => setDatabases (fmap (checkIfError (errorDbNames rs))) st
      | None => skip st
      end) ;;
   setIsReturnModalOpen false ;;
   setScreen query_screen)%handler.

End V1.

(** * The rest of the front end *)

(** ** [QueryScreen]: the check boxes

    [isAllSelected] is a state variable of [QueryScreen] that an effect
    recomputes from [databases] after every change of it; it is given
    here as the function the effect computes. *)

Definition withChecked (c : bool) (db : Database) : Database :=
  {| db_id := db_id db; db_name := db_name db; checked := c;
     db_status := db_status db |}.

(** [dbs.map(db => ({...db, checked: e.target.checked}))]. *)
Definition handleSelectAll {R C} (c : bool) : handler (AppState R) C :=
  setDatabases (fmap (withChecked c)).

(** [db.id === dbId ? {...db, checked: !db.checked} : db]. *)
Definition toggleIfId (dbId : jsstring) (db : Database) : Database :=
  if decide (db_id db = dbId) then withChecked (negb (checked db)) db
  else db.

Definition handleDbCheck {R C} (dbId : jsstring) : handler (AppState R) C :=
  setDatabases (fmap (toggleIfId dbId)).

(** [databases.length > 0 ? databases.every(db => db.checked) : false]. *)
Definition isAllSelected (dbs : list Database) : bool :=
  if (0 <? length dbs)%nat then forallb checked dbs else false.

(** ** [ExecutionScreen]: logs and results *)

(** Truthiness of the optional [log]. *)
Definition hasLog (r : DatabaseStatus) : bool :=
  match log r with
  | Some l => truthy l
  | None => false
  end.

(** [results.filter(r => r.status === 'error' && r.log)], the entries of
    the log dialog; its button is disabled when there is none. *)
Definition errorLogs (rs : list DatabaseStatus) : list DatabaseStatus :=
  filter (fun r => status r = error /\ hasLog r = true) rs.

Definition logsDisabled (rs : list DatabaseStatus) : bool :=
  (length (errorLogs rs) =? 0)%nat.

(** *** The result dialog

    [isResultModalOpen] and [selectedResults] are state of
    [ExecutionScreen], [activeTabIndex] is state of [ExecutionResultModal],
    which stays mounted (rendering [null]) while the dialog is closed. *)

Record ResultModal := {
  isResultModalOpen : bool;
  selectedResults : option (list ExecutionResult);
  activeTabIndex : nat
}.

Definition initialResultModal : ResultModal :=
  {| isResultModalOpen := false; selectedResults := None;
     activeTabIndex := 0 |}.

(** [if (results && results.length > 0) { setSelectedResults(results);
    setIsResultModalOpen(true); }]. *)
Definition handleViewResult (rs : option (list ExecutionResult))
    (m : ResultModal) : ResultModal :=
  match rs with
  | Some (r :: rs') =>
      {| isResultModalOpen := true; selectedResults := Some (r :: rs');
         activeTabIndex := activeTabIndex m |}
  | _ => m
  end.

Definition setActiveTabIndex (i : nat) (m : ResultModal) : ResultModal :=
  {| isResultModalOpen := isResultModalOpen m;
     selectedResults := selectedResults m; activeTabIndex := i |}.

Definition setIsResultModalOpen (v : bool) (m : ResultModal) : ResultModal :=
  {| isResultModalOpen := v; selectedResults := selectedResults m;
     activeTabIndex := activeTabIndex m |}.

(** A render returns an element or throws. *)
Inductive outcome (A : Type) :=
| Rendered (a : A)
| Throws.

Arguments Rendered {A} a.
Arguments Throws {A}.

(** What [ExecutionResultModal] returns: [null], or the dialog with one
    tab button per result and the content of the active result. *)
Inductive modalView :=
| Hidden
| Showing (tabs : nat) (activeResult : ExecutionResult).

(** [if (!isOpen || !results || results.length === 0) return null;
    const activeResult = results[activeTabIndex];] and then
    [activeResult.type], which throws a [TypeError] when [activeResult] is
    [undefined]. *)
Definition renderResultModal (m : ResultModal) : outcome modalView :=
  match isResultModalOpen m, selectedResults m with
  | true, Some (r :: rs) =>
      match (r :: rs) !! activeTabIndex m with
      | Some a => Rendered (Showing (length (r :: rs)) a)
      | None => Throws
      end
  | _, _ => Rendered Hidden
  end.

Global Instance QueryResult_eq_dec : EqDecision QueryResult.
Proof. solve_decision. Defined.

Global Instance ExecutionResult_eq_dec : EqDecision ExecutionResult.
Proof. solve_decision. Defined.

(** The dependencies [[isOpen, results]] of the dialog's effect. *)
Definition modalDeps (m : ResultModal)
    : bool * option (list ExecutionResult) :=
  (isResultModalOpen m, selectedResults m).

(** [useEffect(() => { if (isOpen) setActiveTabIndex(0); },
    [isOpen, results])], run after a commit whose dependencies differ from
    those of the commit before. *)
Definition resetTabEffect (prev : bool * option (list ExecutionResult))
    (m : ResultModal) : ResultModal :=
  if decide (prev = modalDeps m) then m
  else if isResultModalOpen m then setActiveTabIndex 0 m
  else m.

(** Render, then the effect, then the render the effect's update asks
    for.  A render that throws leaves no committed state. *)
Definition commitResultModal (prev : bool * option (list ExecutionResult))
    (m : ResultModal) : outcome ResultModal :=
  match renderResultModal m with
  | Throws => Throws
  | Rendered _ =>
      match renderResultModal (resetTabEffect prev m) with
      | Throws => Throws
      | Rendered _ => Rendered (resetTabEffect prev m)
      end
  end.

(** The eye button of a row (rendered when the row has results, and
    reachable while the dialog's overlay is absent), a tab button, the
    close button. *)
Inductive modal_event :=
| ViewResultClicked (rs : list ExecutionResult)
| TabClicked (index : nat)
| ResultModalClosed.

Definition handleModalEvent (ev : modal_event) (m : ResultModal)
    : ResultModal :=
  match ev with
  | ViewResultClicked rs =>
      if isResultModalOpen m then m
      else match rs with
           | [] => m
           | _ :: _ => handleViewResult (Some rs) m
           end
  | TabClicked i =>
      match renderResultModal m with
      | Rendered (Showing tabs _) =>
          if (i <? tabs)%nat then setActiveTabIndex i m else m
      | _ => m
      end
  | ResultModalClosed =>
      match renderResultModal m with
      | Rendered (Showing _ _) => setIsResultModalOpen false m
      | _ => m
      end
  end.

Definition modalStep (ev : modal_event) (m : ResultModal)
    : outcome ResultModal :=
  commitResultModal (modalDeps m) (handleModalEvent ev m).

Fixpoint modalRun (evs : list modal_event) (m : ResultModal)
    : outcome ResultModal :=
  match evs with
  | [] => Rendered m
  | ev :: evs' =>
      match modalStep ev m with
      | Rendered m' => modalRun evs' m'
      | Throws => Throws
      end
  end.

(** ** The database loader

    The effect of [App] with dependencies [[screen, selectedConnection]]
    asks the back end for the databases of the selected connection; the
    answer replaces [databases].  [isLoadingDatabases] and [dbError] are
    its two flags. *)

Record DatabaseInfo := {
  info_name : jsstring;
  info_status : Z
}.

Record LoaderFlags := {
  isLoadingDatabases : bool;
  dbError : option jsstring
}.

Inductive loader_command :=
| get_databases (connection : Connection).

Global Instance Connection_eq_dec : EqDecision Connection.
Proof. solve_decision. Defined.

(** The decimal digits of an array index, as a template literal prints
    it. *)
Definition decimal (n : nat) : jsstring :=
  js (NilZero.string_of_uint (Nat.to_uint n)).

(** [dbInfos.map((db, index) => ({ id: `db-${index}`, name: db.name,
    checked: true, status: db.status }))]. *)
Definition formatDbs (dbInfos : list DatabaseInfo) : list Database :=
  imap (fun index db =>
          {| db_id := js "db-" ++ decimal index; db_name := info_name db;
             checked := true; db_status := info_status db |})
    dbInfos.

Definition loaderDeps {R} (st : AppState R) : Screen * option Connection :=
  (screen st, selectedConnection st).

(** The effect body up to the call. *)
Definition loadDatabases {R}
    : handler (AppState R * LoaderFlags) loader_command := fun s =>
  match screen s.1, selectedConnection s.1 with
  | query_screen, Some c =>
      ((s.1, {| isLoadingDatabases := true; dbError := None |}),
       [Invoke (get_databases c)])
  | _, _ => (s, [])
  end.

(** The effect, run after a commit whose dependencies differ from [prev],
    those of the commit before. *)
Definition loaderEffect {R} (prev : Screen * option Connection)
    : handler (AppState R * LoaderFlags) loader_command := fun s =>
  if decide (prev = loaderDeps s.1) then (s, []) else loadDatabases s.

(** [.then(dbInfos => setDatabases(formattedDbs))] and [.finally];
    [sortByName] stands for
    [Array.prototype.sort((a, b) => a.name.localeCompare(b.name))], whose
    order depends on the locale. *)
Definition onDatabasesLoaded {R C}
    (sortByName : list Database -> list Database)
    (dbInfos : list DatabaseInfo)
    : handler (AppState R * LoaderFlags) C := fun s =>
  (((setDatabases (C:=C) (fun _ => sortByName (formatDbs dbInfos)) s.1).1,
    {| isLoadingDatabases := false; dbError := dbError s.2 |}), []).

(** [.catch(err => setDbError(err))] and [.finally]. *)
Definition onDatabasesFailed {R C} (err : jsstring)
    : handler (AppState R * LoaderFlags) C := fun s =>
  ((s.1, {| isLoadingDatabases := false; dbError := Some err |}), []).

(** [QueryScreen] renders the list, the editor and the execute buttons
    under [!isLoading && !error]. *)
Definition executeButtonsShown (fl : LoaderFlags) : bool :=
  negb (isLoadingDatabases fl)
  && match dbError fl with
     | Some e => negb (truthy e)
     | None => true
     end.

(** [handleBackToConnections]. *)
Definition handleBackToConnections {R C} : handler (AppState R) C :=
  (setScreen connections_screen ;; setDatabases (fun _ => []))%handler.

Module V1Loader.

(** The earlier snapshot loads only when the list is empty, and its
    dependencies are [[screen, selectedConnection, databases.length]]. *)
Definition loaderDeps {R} (st : AppState R)
    : Screen * option Connection * nat :=
  (screen st, selectedConnection st, length (databases st)).

Definition loadDatabases {R}
    : handler (AppState R * LoaderFlags) loader_command := fun s =>
  match screen s.1, selectedConnection s.1, databases s.1 with
  | query_screen, Some c, [] =>
      ((s.1, {| isLoadingDatabases := true; dbError := None |}),
       [Invoke (get_databases c)])
  | _, _, _ => (s, [])
  end.

Definition loaderEffect {R} (prev : Screen * option Connection * nat)
    : handler (AppState R * LoaderFlags) loader_command := fun s =>
  if decide (prev = loaderDeps s.1) then (s, []) else loadDatabases s.

End V1Loader.

(** ** The connections screen

    The dialog flags of [App] next to its state.  [Date.now().toString()]
    is an input of [handleSaveConnection], called [now] here.  What
    follows are the handlers.  The effects around them are left out: the
    one that saves the list after every change, and the one that loads
    the saved list, which runs once in the earlier snapshot and again
    after every change of the banner in the later one, its answer
    replacing [connections]. *)

Inductive ModalMode := new_mode | edit_mode.

Global Instance ModalMode_eq_dec : EqDecision ModalMode.
Proof. solve_decision. Defined.

Record Dialogs := {
  isModalOpen : bool;
  modalMode : ModalMode;
  isConfirmDeleteOpen : bool
}.

(** [Omit<Connection, 'id'>]. *)
Record ConnectionFormData := {
  fd_name : jsstring;
  fd_host : jsstring;
  fd_port : jsstring;
  fd_user : jsstring;
  fd_pass : jsstring;
  fd_savePass : bool
}.

(** [{ id: newId, ...connectionData }], and [{ ...conn, ...connectionData }]
    with [newId] the id of [conn]. *)
Definition withFormData (newId : jsstring) (d : ConnectionFormData)
    : Connection :=
  {| conn_id := newId; conn_name := fd_name d; host := fd_host d;
     port := fd_port d; user := fd_user d; pass := fd_pass d;
     savePass := fd_savePass d |}.

Definition setConnections {R C} (v : list Connection)
    : handler (AppState R) C := fun st =>
  ({| screen := screen st; connections := v; databases := databases st;
      selectedConnectionId := selectedConnectionId st;
      executionData := executionData st;
      isReturnModalOpen := isReturnModalOpen st;
      lastExecutionResults := lastExecutionResults st;
      query := query st; notification := notification st |}, []).

Definition setSelectedConnectionId {R C}
    (f : option jsstring -> option jsstring) : handler (AppState R) C :=
  fun st =>
  ({| screen := screen st; connections := connections st;
      databases := databases st;
      selectedConnectionId := f (selectedConnectionId st);
      executionData := executionData st;
      isReturnModalOpen := isReturnModalOpen st;
      lastExecutionResults := lastExecutionResults st;
      query := query st; notification := notification st |}, []).

(** A handler of [App] run next to the dialog flags. *)
Definition inApp {R C} (h : handler (AppState R) C)
    : handler (AppState R * Dialogs) C := fun s =>
  let '(st, es) := h s.1 in ((st, s.2), es).

Definition setIsModalOpen {R C} (v : bool)
    : handler (AppState R * Dialogs) C := fun s =>
  ((s.1, {| isModalOpen := v; modalMode := modalMode s.2;
            isConfirmDeleteOpen := isConfirmDeleteOpen s.2 |}), []).

Definition setModalMode {R C} (v : ModalMode)
    : handler (AppState R * Dialogs) C := fun s =>
  ((s.1, {| isModalOpen := isModalOpen s.2; modalMode := v;
            isConfirmDeleteOpen := isConfirmDeleteOpen s.2 |}), []).

Definition setIsConfirmDeleteOpen {R C} (v : bool)
    : handler (AppState R * Dialogs) C := fun s =>
  ((s.1, {| isModalOpen := isModalOpen s.2; modalMode := modalMode s.2;
            isConfirmDeleteOpen := v |}), []).

(** Truthiness of [selectedConnectionId : string | null]. *)
Definition truthyId (i : option jsstring) : bool :=
  match i with
  | Some s => truthy s
  | None => false
  end.

(** [currentId === connectionId ? null : connectionId]. *)
Definition handleConnectionSelect {R C} (connectionId : jsstring)
    : handler (AppState R * Dialogs) C :=
  inApp (setSelectedConnectionId
           (fun currentId =>
              if decide (currentId = Some connectionId) then None
              else Some connectionId)).

Definition handleConnect {R C} : handler (AppState R * Dialogs) C := fun s =>
  if truthyId (selectedConnectionId s.1) then inApp (setScreen query_screen) s
  else skip s.

Definition handleOpenModal {R C} (mode : ModalMode)
    : handler (AppState R * Dialogs) C := fun s =>
  if bool_decide (mode = edit_mode)
     && negb (truthyId (selectedConnectionId s.1))
  then skip s
  else (setModalMode mode ;; setIsModalOpen true)%handler s.

Definition handleCloseModal {R C} : handler (AppState R * Dialogs) C :=
  fun s =>
  (setIsModalOpen false ;;
   if bool_decide (modalMode s.2 = edit_mode)
   then inApp (setSelectedConnectionId (fun _ => None))
   else skip)%handler s.

(** "Nova conexão adicionada!", "Conexão salva!", "Conexão deletada." *)
Definition connectionAddedMessage : jsstring :=
  js "Nova conex" ++ [227] ++ js "o adicionada!".

Definition connectionSavedMessage : jsstring :=
  js "Conex" ++ [227] ++ js "o salva!".

Definition connectionDeletedMessage : jsstring :=
  js "Conex" ++ [227] ++ js "o deletada.".

Definition handleSaveConnection {R C} (now : jsstring)
    (connectionData : ConnectionFormData)
    : handler (AppState R * Dialogs) C := fun s =>
  ((match modalMode s.2 with
    | new_mode =>
        inApp (setConnections
                 (connections s.1 ++ [withFormData now connectionData]) ;;
               showNotification connectionAddedMessage)
    | edit_mode =>
        match selectedConnectionId s.1 with
        | Some (c :: i) =>
            inApp (setConnections
                     ((fun conn =>
                         if decide (conn_id conn = c :: i)
                         then withFormData (conn_id conn) connectionData
                         else conn) <$> connections s.1) ;;
                   showNotification connectionSavedMessage)
        | _ => skip
        end
    end) ;;
   handleCloseModal)%handler s.

(** [ConnectionModal]: [if (formData.name.trim()) onSave(formData)]. *)
Definition handleSubmit {R C} (now : jsstring) (formData : ConnectionFormData)
    : handler (AppState R * Dialogs) C := fun s =>
  if truthy (trim (fd_name formData)) then handleSaveConnection now formData s
  else skip s.

Definition handleDeleteConnection {R C} : handler (AppState R * Dialogs) C :=
  fun s =>
  if truthyId (selectedConnectionId s.1) then setIsConfirmDeleteOpen true s
  else skip s.

Definition handleCloseConfirmDelete {R C}
    : handler (AppState R * Dialogs) C :=
  setIsConfirmDeleteOpen false.

Definition handleConfirmDelete {R C} : handler (AppState R * Dialogs) C :=
  fun s =>
  match selectedConnectionId s.1 with
  | Some (c :: i) =>
      (inApp (setConnections
                (filter (fun conn => conn_id conn <> c :: i)
                   (connections s.1)) ;;
              showNotification connectionDeletedMessage ;;
              setSelectedConnectionId (fun _ => None)) ;;
       handleCloseConfirmDelete)%handler s
  | _ => skip s
  end.

(** What the operator can do on the connections screen and in its two
    dialogs.  The list items and the four buttons belong to the screen;
    "Conectar", "Editar" and "Deletar" are disabled without a selection. *)
Inductive conn_event :=
| ConnectionClicked (connectionId : jsstring)
| ConnectClicked
| NewClicked
| EditClicked
| DeleteClicked
| FormSubmitted (now : jsstring) (formData : ConnectionFormData)
| FormClosed
| DeleteConfirmed
| DeleteCancelled.

Definition onConnectionsScreen {R} (s : AppState R * Dialogs) : bool :=
  bool_decide (screen s.1 = connections_screen).

Definition handleConnEvent {R C} (ev : conn_event)
    : handler (AppState R * Dialogs) C := fun s =>
  match ev with
  | ConnectionClicked i =>
      if onConnectionsScreen s
         && bool_decide (i ∈ conn_id <$> connections s.1)
      then handleConnectionSelect i s else skip s
  | ConnectClicked =>
      if onConnectionsScreen s && truthyId (selectedConnectionId s.1)
      then handleConnect s else skip s
  | NewClicked =>
      if onConnectionsScreen s then handleOpenModal new_mode s else skip s
  | EditClicked =>
      if onConnectionsScreen s && truthyId (selectedConnectionId s.1)
      then handleOpenModal edit_mode s else skip s
  | DeleteClicked =>
      if onConnectionsScreen s && truthyId (selectedConnectionId s.1)
      then handleDeleteConnection s else skip s
  | FormSubmitted now formData =>
      if isModalOpen s.2 then handleSubmit now formData s else skip s
  | FormClosed =>
      if isModalOpen s.2 then handleCloseModal s else skip s
  | DeleteConfirmed =>
      if isConfirmDeleteOpen s.2 then handleConfirmDelete s else skip s
  | DeleteCancelled =>
      if isConfirmDeleteOpen s.2 then handleCloseConfirmDelete s else skip s
  end.


(** No connection has a name that [trim] empties. *)
Definition namesNotBlank {R} (st : AppState R) : Prop :=
  Forall (fun c => forallb isWhiteSpace (conn_name c) = false)
    (connections st).

(** ** Invariant of the execution screen

    When mounted, the screen is the one [App] renders, and its status list
    has the names of its [databases] prop, in order; when not mounted,
    [App] renders none. *)
Definition mountedAsRendered (w : World) : Prop :=
  match view w with
  | Some v =>
      rendersExecutionScreen (app w) = Some (es_databases v)
      /\ name <$> es_results v = es_databases v
  | None => rendersExecutionScreen (app w) = None
  end.

(** ** Sample data *)

Module Sample.

Definition local : Connection :=
  {| conn_id := js "1700000000000"; conn_name := js "local";
     host := js "127.0.0.1"; port := js "3306"; user := js "root";
     pass := js "secret"; savePass := false |}.

Definition db (n : string) (c : bool) : Database :=
  {| db_id := js n; db_name := js n; checked := c; db_status := 0%Z |}.

(** The query screen of connection [local], [db1] and [db2] checked. *)
Definition queryScreen : World :=
  {| app :=
       {| screen := query_screen; connections := [local];
          databases := [db "db1" true; db "db2" true; db "db3" false];
          selectedConnectionId := Some (conn_id local);
          executionData := None; isReturnModalOpen := false;
          lastExecutionResults := None; query := js "SELECT 1";
          notification := None |};
     view := None |}.

(** The same screen with no connection selected. *)
Definition noConnection : AppState DatabaseStatus :=
  {| screen := query_screen; connections := [local];
     databases := [db "db1" true];
     selectedConnectionId := None;
     executionData := None; isReturnModalOpen := false;
     lastExecutionResults := None; query := js "SELECT 1";
     notification := None |}.

Definition snapshot (n : string) (s : ExecutionStatus)
    (l : option jsstring) (rs : list ExecutionResult) : DatabaseStatus :=
  {| name := js n; status := s; log := l; results := rs |}.

Definition db1_ok : DatabaseStatus :=
  snapshot "db1" success None [mutation_result 0].

Definition db1_waiting : DatabaseStatus := snapshot "db1" waiting None [].

Definition db1_failed : DatabaseStatus :=
  snapshot "db1" error (Some (js "timeout")) [].

Definition db2_ok : DatabaseStatus :=
  snapshot "db2" success None
    [select_result {| headers := [js "1"]; rows := [[js "1"]] |}].

Definition db9_ok : DatabaseStatus := snapshot "db9" success None [].

Definition db3_ok : DatabaseStatus :=
  snapshot "db3" success None
    [select_result {| headers := [js "1"]; rows := [[js "1"]] |}].

Definition db2_changed : DatabaseStatus :=
  snapshot "db2" success None [mutation_result 0].

(** The query screen with all three databases checked. *)
Definition allChecked : World :=
  {| app :=
       {| screen := query_screen; connections := [local];
          databases := [db "db1" true; db "db2" true; db "db3" true];
          selectedConnectionId := Some (conn_id local);
          executionData := None; isReturnModalOpen := false;
          lastExecutionResults := None; query := js "SELECT 1";
          notification := None |};
     view := None |}.

End Sample.

(** * Properties *)

(** ** [trim] *)

Lemma trimStart_nil_iff (s : jsstring) :
  trimStart s = [] <-> forallb isWhiteSpace s = true.
Proof.
  induction s as [|c s IH]; simpl; [done|].
  destruct (isWhiteSpace c); simpl; [exact IH|].
  split; discriminate.
Qed.

Lemma trimStart_all_white (s : jsstring) :
  forallb isWhiteSpace (trimStart s) = true -> trimStart s = [].
Proof.
  induction s as [|c s IH]; simpl; [done|].
  destruct (isWhiteSpace c) eqn:Hc; [exact IH|].
  simpl. rewrite Hc. discriminate.
Qed.

Lemma forallb_rev {A} (f : A -> bool) (l : list A) :
  forallb f (rev l) = forallb f l.
Proof.
  induction l as [|x l IH]; simpl; [done|].
  rewrite forallb_app, IH. simpl. rewrite andb_true_r. apply andb_comm.
Qed.

Lemma rev_nil_inv {A} (l : list A) : rev l = [] -> l = [].
Proof.
  intros H. apply (f_equal (@rev A)) in H. by rewrite rev_involutive in H.
Qed.

(** [trim] returns the empty string exactly on the strings made of white
    space only, the empty one among them. *)
Lemma trim_nil_iff (s : jsstring) :
  trim s = [] <-> forallb isWhiteSpace s = true.
Proof.
  unfold trim, trimEnd. split.
  - intros H. apply rev_nil_inv in H.
    apply trimStart_nil_iff in H. rewrite forallb_rev in H.
    apply trimStart_all_white in H. by apply trimStart_nil_iff.
  - intros H. apply trimStart_nil_iff in H. by rewrite H.
Qed.

Lemma truthy_trim_false (s : jsstring) :
  negb (truthy (trim s)) = true <-> forallb isWhiteSpace s = true.
Proof.
  rewrite <- trim_nil_iff. destruct (trim s); simpl; split; done.
Qed.

(** ** Replacement by name *)

Section ReplaceByNameFacts.
Context {A : Type} (key : A -> jsstring).
Implicit Types (p q r : A) (l : list A).

Lemma replaceByName_keys p l :
  key <$> replaceByName key p l = key <$> l.
Proof.
  unfold replaceByName. induction l as [|x l IH]; csimpl; [done|].
  rewrite IH. by case_decide; [f_equal|].
Qed.

Lemma replaceByName_length p l :
  length (replaceByName key p l) = length l.
Proof. unfold replaceByName. by rewrite length_fmap. Qed.

Lemma replaceByName_idemp p l :
  replaceByName key p (replaceByName key p l) = replaceByName key p l.
Proof.
  unfold replaceByName. induction l as [|x l IH]; csimpl; [done|].
  rewrite IH. f_equal.
  destruct (decide (key x = key p)) as [Hx|Hx].
  - by rewrite decide_True.
  - by rewrite decide_False.
Qed.

Lemma replaceByName_absent p l :
  key p ∉ key <$> l -> replaceByName key p l = l.
Proof.
  unfold replaceByName. induction l as [|x l IH]; csimpl; [done|].
  intros H. apply not_elem_of_cons in H as [Hx Hl].
  rewrite (IH Hl). by rewrite decide_False.
Qed.

(** After the replacement every entry named as the payload is the
    payload. *)
Lemma replaceByName_hit p l r :
  r ∈ replaceByName key p l -> key r = key p -> r = p.
Proof.
  unfold replaceByName. intros Hr Hk.
  apply list_elem_of_fmap in Hr as (x & -> & _).
  destruct (decide (key x = key p)) as [|Hx]; [done|].
  by destruct Hx.
Qed.

(** Entries named otherwise are entries of the list before. *)
Lemma replaceByName_miss p l r :
  r ∈ replaceByName key p l -> key r <> key p -> r ∈ l.
Proof.
  unfold replaceByName. intros Hr Hk.
  apply list_elem_of_fmap in Hr as (x & -> & Hx).
  by destruct (decide (key x = key p)).
Qed.

Lemma replaceByName_keeps p l r :
  r ∈ l -> key r <> key p -> r ∈ replaceByName key p l.
Proof.
  unfold replaceByName. intros Hr Hk.
  apply list_elem_of_fmap. exists r. by rewrite decide_False.
Qed.
End ReplaceByNameFacts.

Lemma applyStatusUpdate_replace :
  applyStatusUpdate = replaceByName name.
Proof. reflexivity. Qed.

Lemma V1_applyStatusUpdate_replace :
  V1.applyStatusUpdate = replaceByName V1.name.
Proof. reflexivity. Qed.

(** ** The status list under updates *)

Lemma initialResults_names (T : list jsstring) :
  name <$> initialResults T = T.
Proof.
  unfold initialResults. induction T as [|n T IH]; csimpl; [done|].
  by rewrite IH.
Qed.

Lemma initialResults_waiting (T : list jsstring) :
  Forall (fun r => status r = waiting /\ log r = None /\ results r = [])
    (initialResults T).
Proof.
  unfold initialResults. induction T as [|n T IH]; csimpl; [done|].
  by constructor.
Qed.

Lemma applyStatusUpdates_names ps s :
  name <$> applyStatusUpdates ps s = name <$> s.
Proof.
  unfold applyStatusUpdates. revert s.
  induction ps as [|p ps IH]; intros s; simpl; [done|].
  rewrite IH, applyStatusUpdate_replace. apply replaceByName_keys.
Qed.

(** C3: applying the same snapshot twice in succession gives the status
    list that applying it once gives, for every status list and every
    snapshot. *)
Theorem status_update_idempotent (p : DatabaseStatus)
    (s : list DatabaseStatus) :
  applyStatusUpdate p (applyStatusUpdate p s) = applyStatusUpdate p s.
Proof. rewrite applyStatusUpdate_replace. apply replaceByName_idemp. Qed.

Lemma V1_status_update_idempotent (p : V1.DatabaseStatus)
    (s : list V1.DatabaseStatus) :
  V1.applyStatusUpdate p (V1.applyStatusUpdate p s)
  = V1.applyStatusUpdate p s.
Proof. rewrite V1_applyStatusUpdate_replace. apply replaceByName_idemp. Qed.

(** C9: an update changes neither which names the status list holds nor
    their order, so after any sequence of updates the names are still the
    dispatched ones, in dispatch order. *)
Theorem status_update_keeps_names (p : DatabaseStatus)
    (s : list DatabaseStatus) (T : list jsstring)
    (ps : list DatabaseStatus) :
  name <$> applyStatusUpdate p s = name <$> s
  /\ length (applyStatusUpdate p s) = length s
  /\ name <$> applyStatusUpdates ps (initialResults T) = T.
Proof.
  rewrite applyStatusUpdate_replace. split; [|split].
  - apply replaceByName_keys.
  - apply replaceByName_length.
  - by rewrite applyStatusUpdates_names, initialResults_names.
Qed.

Lemma V1_status_update_keeps_names (p : V1.DatabaseStatus)
    (s : list V1.DatabaseStatus) :
  V1.name <$> V1.applyStatusUpdate p s = V1.name <$> s.
Proof. rewrite V1_applyStatusUpdate_replace. apply replaceByName_keys. Qed.

Lemma handle_status_update_unmounted (p : DatabaseStatus) (w : World) :
  view w = None -> handle (StatusUpdate p) w = (w, []).
Proof. intros H. simpl. by rewrite H. Qed.

(** C2: an update named as no entry of the status list leaves the list as
    it was; delivered to the front end it changes nothing and makes no
    call, whether an execution screen is mounted or not. *)
Theorem unknown_target_update_ignored (p : DatabaseStatus) (w : World) :
  (forall s, session w = Some s -> name p ∉ name <$> s) ->
  (forall s, session w = Some s -> applyStatusUpdate p s = s)
  /\ handle (StatusUpdate p) w = (w, []).
Proof.
  intros H.
  assert (Hs : forall s, session w = Some s -> applyStatusUpdate p s = s).
  { intros s Hw. rewrite applyStatusUpdate_replace.
    apply replaceByName_absent. by apply H. }
  split; [exact Hs|].
  destruct w as [st [v|]]; [|done].
  simpl. unfold onStatusUpdate. rewrite (Hs (es_results v)); [|done].
  by destruct v.
Qed.

Lemma unknown_target_update_ignored_witness :
  (forall s, session (run [SaveOptionSelected none false] Sample.queryScreen).1
               = Some s ->
             applyStatusUpdate Sample.db9_ok s = s)
  /\ handle (StatusUpdate Sample.db9_ok)
       (run [SaveOptionSelected none false] Sample.queryScreen).1
     = ((run [SaveOptionSelected none false] Sample.queryScreen).1, []).
Proof.
  apply (unknown_target_update_ignored Sample.db9_ok
           (run [SaveOptionSelected none false] Sample.queryScreen).1).
  intros s Hs. vm_compute in Hs. injection Hs as <-.
  apply (bool_decide_unpack _). vm_compute. exact I.
Defined.

Lemma V1_unknown_target_update_ignored (p : V1.DatabaseStatus)
    (s : list V1.DatabaseStatus) :
  V1.name p ∉ V1.name <$> s -> V1.applyStatusUpdate p s = s.
Proof. rewrite V1_applyStatusUpdate_replace. apply replaceByName_absent. Qed.

(** ** Terminal phases *)

(** C1, as stated, fails: in one run, [db1] is set to [success] by an
    update, and the next update for [db1] sets it back to [waiting]; an
    update carrying [error] instead flips it from [success] to [error]. *)
Lemma terminal_phase_overwritten :
  let running :=
    (run [SaveOptionSelected none false; StatusUpdate Sample.db1_ok]
       Sample.queryScreen).1 in
  phases running = Some [success; waiting]
  /\ phases (run [StatusUpdate Sample.db1_waiting] running).1
     = Some [waiting; waiting]
  /\ phases (run [StatusUpdate Sample.db1_failed] running).1
     = Some [error; waiting].
Proof. vm_compute. done. Qed.

Lemma replaceByName_twice {A} (key : A -> jsstring) (p q : A)
    (l : list A) :
  replaceByName key q (replaceByName key p l)
  = (fun res => if decide (key res = key q) then q
                else if decide (key res = key p) then p else res) <$> l.
Proof.
  unfold replaceByName. induction l as [|x l IH]; csimpl; [done|].
  rewrite IH. f_equal.
  destruct (decide (key x = key p)) as [Hp|Hp].
  - destruct (decide (key p = key q)) as [Hq|Hq].
    + by rewrite decide_True by congruence.
    + by rewrite decide_False by congruence.
  - done.
Qed.

(** C1, amended: an update is last-write-wins.  Once an update [p] for a
    target of the status list has been applied, the target's entry is [p]
    itself, phase, log and results; after a further update [q] the entry
    is [q] when [q] is for the same target, and still [p] otherwise, and
    every other entry is [q] or the entry it was.  So a terminal phase
    survives a later update for its target exactly when that update
    carries the same phase. *)
Theorem status_update_last_write_wins (p q : DatabaseStatus)
    (s : list DatabaseStatus) :
  name p ∈ name <$> s ->
  isTerminal (status p) = true ->
  let s1 := applyStatusUpdate p s in
  let s2 := applyStatusUpdate q s1 in
  s2 = (fun res => if decide (name res = name q) then q
                   else if decide (name res = name p) then p else res)
       <$> s
  /\ (forall r, r ∈ s1 -> name r = name p -> r = p)
  /\ (exists r, r ∈ s2 /\ name r = name p)
  /\ (forall r, r ∈ s2 -> name r = name p ->
        r = if decide (name q = name p) then q else p)
  /\ (name q = name p ->
      ((forall r, r ∈ s2 -> name r = name p -> status r = status p)
       <-> status q = status p))
  /\ (name q <> name p ->
      forall r, r ∈ s2 -> name r = name p -> status r = status p).
Proof.
  intros Hin _ s1 s2. subst s1 s2. rewrite applyStatusUpdate_replace.
  assert (Hex : exists r,
            r ∈ replaceByName name q (replaceByName name p s)
            /\ name r = name p).
  { assert (H : name p ∈ name <$>
                  replaceByName name q (replaceByName name p s))
      by by rewrite !replaceByName_keys.
    apply list_elem_of_fmap in H as (r & Hn & Hr). by exists r. }
  assert (Hent : forall r,
            r ∈ replaceByName name q (replaceByName name p s) ->
            name r = name p ->
            r = if decide (name q = name p) then q else p).
  { intros r Hr Hn. case_decide as Hq.
    - rewrite <- Hq in Hn. by apply (replaceByName_hit name q _ r Hr Hn).
    - assert (Hne : name r <> name q) by congruence.
      apply replaceByName_miss in Hr; [|done].
      by apply (replaceByName_hit name p s r Hr Hn). }
  split; [apply replaceByName_twice|].
  split; [intros r Hr Hn; by apply (replaceByName_hit name p s r Hr Hn)|].
  split; [done|]. split; [done|]. split.
  - intros Hq. split.
    + intros Hall. destruct Hex as (r & Hr & Hn).
      rewrite <- (Hall r Hr Hn), (Hent r Hr Hn). by rewrite decide_True.
    + intros Hst r Hr Hn. rewrite (Hent r Hr Hn). by rewrite decide_True.
  - intros Hq r Hr Hn. rewrite (Hent r Hr Hn). by rewrite decide_False.
Qed.

Lemma status_update_last_write_wins_witness :
  let p := Sample.db1_ok in
  let q := Sample.db1_failed in
  let s := initialResults [js "db1"; js "db2"] in
  let s1 := applyStatusUpdate p s in
  let s2 := applyStatusUpdate q s1 in
  s2 = (fun res => if decide (name res = name q) then q
                   else if decide (name res = name p) then p else res)
       <$> s
  /\ (forall r, r ∈ s1 -> name r = name p -> r = p)
  /\ (exists r, r ∈ s2 /\ name r = name p)
  /\ (forall r, r ∈ s2 -> name r = name p ->
        r = if decide (name q = name p) then q else p)
  /\ (name q = name p ->
      ((forall r, r ∈ s2 -> name r = name p -> status r = status p)
       <-> status q = status p))
  /\ (name q <> name p ->
      forall r, r ∈ s2 -> name r = name p -> status r = status p).
Proof.
  intros p q s.
  apply (status_update_last_write_wins p q s).
  - apply (bool_decide_unpack _). vm_compute. exact I.
  - reflexivity.
Defined.

Lemma V1_status_update_last_write_wins (p q : V1.DatabaseStatus)
    (s : list V1.DatabaseStatus) (r : V1.DatabaseStatus) :
  r ∈ V1.applyStatusUpdate q (V1.applyStatusUpdate p s) ->
  V1.name r = V1.name p ->
  r = if decide (V1.name q = V1.name p) then q else p.
Proof.
  rewrite V1_applyStatusUpdate_replace. intros Hr Hn. case_decide as Hq.
  - rewrite <- Hq in Hn. by apply (replaceByName_hit V1.name q _ r Hr Hn).
  - assert (Hne : V1.name r <> V1.name q) by congruence.
    apply replaceByName_miss in Hr; [|done].
    by apply (replaceByName_hit V1.name p s r Hr Hn).
Qed.

(** ** Dispatch *)

(** The state [handleExecute] leaves when it accepts. *)
Lemma handleExecute_accepts (st : AppState DatabaseStatus) (c : Connection)
    (q : jsstring) (T : list jsstring) (so : SaveOption) (soe : bool) :
  selectedConnection st = Some c ->
  T <> [] ->
  forallb isWhiteSpace q = false ->
  handleExecute q T so soe st
  = ((setScreen (C:=command) execution_screen
        (setExecutionData (C:=command) (Some (q, T)) st).1).1,
     [Invoke (add_query_to_history q (conn_name c) (js "executed"));
      Invoke (execute_query_on_databases c T q so soe)]).
Proof.
  intros Hc HT Hq. unfold handleExecute. rewrite Hc.
  destruct T as [|n T]; [done|].
  assert (Hb : negb (truthy (trim q)) = false).
  { destruct (negb (truthy (trim q))) eqn:E; [|done].
    apply truthy_trim_false in E. congruence. }
  simpl length. rewrite Hb. reflexivity.
Qed.

Lemma handleExecute_rejects (st : AppState DatabaseStatus)
    (q : jsstring) (T : list jsstring) (so : SaveOption) (soe : bool) :
  forallb isWhiteSpace q = true \/ T = [] ->
  handleExecute q T so soe st = showNotification checkInputsMessage st.
Proof.
  intros H. unfold handleExecute.
  destruct (selectedConnection st); [|done].
  destruct H as [H| ->]; [|done].
  apply truthy_trim_false in H. rewrite H. by rewrite orb_true_r.
Qed.

Lemma V1_handleExecute_rejects (st : AppState V1.DatabaseStatus)
    (q : jsstring) (T : list jsstring) (so : SaveOption) :
  forallb isWhiteSpace q = true \/ T = [] ->
  V1.handleExecute q T so st
  = showNotification
      (if (length T =? 0)%nat then V1.noDatabaseMessage
       else V1.emptyQueryMessage) st.
Proof.
  intros H. unfold V1.handleExecute.
  destruct (length T =? 0)%nat eqn:E; [done|].
  destruct H as [H| ->]; [|done].
  apply truthy_trim_false in H. by rewrite H.
Qed.

Lemma invocations_commit (w : World) : invocations (commit w).2 = [].
Proof.
  unfold commit.
  destruct (rendersExecutionScreen (app w)), (view w);
    try case_decide; done.
Qed.

(** C5: when the script is empty or made of white space only, or no target
    is given, [handleExecute] does nothing but show its error banner: the
    state is otherwise untouched and no command is sent to the back end.
    The commit that follows sends nothing either.  This holds in both
    snapshots. *)
Theorem blank_script_or_no_target_rejected
    (st : AppState DatabaseStatus) (st1 : AppState V1.DatabaseStatus)
    (q : jsstring) (T : list jsstring) (so : SaveOption) (soe : bool) :
  forallb isWhiteSpace q = true \/ T = [] ->
  handleExecute q T so soe st = showNotification checkInputsMessage st
  /\ invocations (handleExecute q T so soe st).2 = []
  /\ (forall w, app w = st -> invocations (dispatch q T so soe w).2 = [])
  /\ (exists m, V1.handleExecute q T so st1 = showNotification m st1)
  /\ invocations (V1.handleExecute q T so st1).2 = [].
Proof.
  intros H.
  rewrite (V1_handleExecute_rejects st1 q T so H).
  split; [by apply handleExecute_rejects|].
  split; [by rewrite handleExecute_rejects|].
  split; [|split; [by eexists|done]].
  intros w <-. unfold dispatch, andThen, onApp.
  rewrite (handleExecute_rejects (app w) q T so soe H).
  unfold showNotification, andThen. simpl.
  match goal with |- context [commit ?w1] =>
    pose proof (invocations_commit w1) as Hc; destruct (commit w1) end.
  simpl in *. done.
Qed.

Lemma blank_script_or_no_target_rejected_witness :
  let st := app Sample.queryScreen in
  let st1 : AppState V1.DatabaseStatus :=
    {| screen := query_screen; connections := [Sample.local];
       databases := [Sample.db "db1" true];
       selectedConnectionId := Some (conn_id Sample.local);
       executionData := None; isReturnModalOpen := false;
       lastExecutionResults := None; query := [];
       notification := None |} in
  let q := [32; 10; 160; 9] in
  let T := [js "db1"] in
  handleExecute q T none false st = showNotification checkInputsMessage st
  /\ invocations (handleExecute q T none false st).2 = []
  /\ (forall w, app w = st ->
      invocations (dispatch q T none false w).2 = [])
  /\ (exists m, V1.handleExecute q T none st1 = showNotification m st1)
  /\ invocations (V1.handleExecute q T none st1).2 = [].
Proof.
  intros st st1 q T.
  apply (blank_script_or_no_target_rejected st st1 q T none false).
  left. reflexivity.
Defined.

(** C10: with no connection selected [handleExecute] rejects whatever the
    script and the targets are: it shows its error banner, sends nothing to
    the back end (neither the execution nor the history entry) and leaves
    the rest of the state as it was. *)
Theorem no_connection_rejected (st : AppState DatabaseStatus)
    (q : jsstring) (T : list jsstring) (so : SaveOption) (soe : bool) :
  selectedConnection st = None ->
  handleExecute q T so soe st = showNotification checkInputsMessage st
  /\ notification (handleExecute q T so soe st).1 = Some checkInputsMessage
  /\ screen (handleExecute q T so soe st).1 = screen st
  /\ executionData (handleExecute q T so soe st).1 = executionData st
  /\ invocations (handleExecute q T so soe st).2 = [].
Proof. intros H. unfold handleExecute. rewrite H. done. Qed.

Lemma no_connection_rejected_witness :
  let st := Sample.noConnection in
  let q := js "SELECT 1" in
  let T := [js "db1"] in
  handleExecute q T none false st = showNotification checkInputsMessage st
  /\ notification (handleExecute q T none false st).1
     = Some checkInputsMessage
  /\ screen (handleExecute q T none false st).1 = screen st
  /\ executionData (handleExecute q T none false st).1 = executionData st
  /\ invocations (handleExecute q T none false st).2 = [].
Proof.
  intros st q T. apply (no_connection_rejected st q T none false).
  reflexivity.
Defined.

(** An accepted dispatch from a world with no execution screen mounted:
    the calls made, in order, and the world reached. *)
Lemma dispatch_accepted (w : World) (c : Connection)
    (q : jsstring) (T : list jsstring) (so : SaveOption) (soe : bool) :
  selectedConnection (app w) = Some c ->
  T <> [] ->
  forallb isWhiteSpace q = false ->
  view w = None ->
  dispatch q T so soe w
  = ({| app := (setScreen (C:=command) execution_screen
                  (setExecutionData (C:=command) (Some (q, T)) (app w)).1).1;
        view := Some (mountExecutionScreen T) |},
     [Invoke (add_query_to_history q (conn_name c) (js "executed"));
      Invoke (execute_query_on_databases c T q so soe);
      Listen statusChannel]).
Proof.
  intros Hc HT Hq Hv. unfold dispatch, andThen, onApp.
  rewrite (handleExecute_accepts (app w) c q T so soe Hc HT Hq).
  unfold commit. simpl. by rewrite Hv.
Qed.

(** C4: an accepted dispatch of the target list [T] mounts the execution
    screen with a status list that has one entry per element of [T], in
    the order of [T] and under its name, each [waiting], without log and
    with no statement results. *)
Theorem dispatch_creates_waiting_session (w : World)
    (q : jsstring) (T : list jsstring) (so : SaveOption) (soe : bool) :
  T <> [] ->
  forallb isWhiteSpace q = false ->
  is_Some (selectedConnection (app w)) ->
  view w = None ->
  exists s,
    session (dispatch q T so soe w).1 = Some s
    /\ name <$> s = T
    /\ length s = length T
    /\ Forall (fun r => status r = waiting /\ log r = None /\ results r = [])
         s.
Proof.
  intros HT Hq [c Hc] Hv.
  rewrite (dispatch_accepted w c q T so soe Hc HT Hq Hv).
  exists (initialResults T). split; [done|]. split; [|split].
  - apply initialResults_names.
  - unfold initialResults. apply length_fmap.
  - apply initialResults_waiting.
Qed.

Lemma dispatch_creates_waiting_session_witness :
  exists s,
    session (dispatch (js "SELECT 1") [js "db1"; js "db2"; js "db3"]
               none false Sample.queryScreen).1 = Some s
    /\ name <$> s = [js "db1"; js "db2"; js "db3"]
    /\ length s = 3%nat
    /\ Forall (fun r => status r = waiting /\ log r = None /\ results r = [])
         s.
Proof.
  apply (dispatch_creates_waiting_session Sample.queryScreen
           (js "SELECT 1") [js "db1"; js "db2"; js "db3"] none false).
  - discriminate.
  - reflexivity.
  - vm_compute. eexists. reflexivity.
  - reflexivity.
Defined.

Lemma V1_initialResults_waiting (T : list jsstring) :
  V1.name <$> V1.initialResults T = T
  /\ Forall (fun r => V1.status r = waiting /\ V1.log r = None
                      /\ V1.result r = None)
       (V1.initialResults T).
Proof.
  unfold V1.initialResults. induction T as [|n T [IH1 IH2]]; csimpl; [done|].
  split; [by rewrite IH1|by constructor].
Qed.

(** ** The listener *)

(** While the execution screen is mounted for the dispatched list, status
    updates are applied one after the other and cause no call. *)
Lemma run_status_updates (ps : list DatabaseStatus) (w : World)
    (v : ExecutionScreenState) :
  view w = Some v ->
  rendersExecutionScreen (app w) = Some (es_databases v) ->
  run (StatusUpdate <$> ps) w
  = ({| app := app w;
        view := Some {| es_databases := es_databases v;
                        es_results := applyStatusUpdates ps (es_results v) |}
     |}, []).
Proof.
  revert w v. induction ps as [|p ps IH]; intros w v Hv Hr.
  - destruct w as [st vw], v. simpl in *. by subst.
  - change (StatusUpdate <$> p :: ps)
      with (StatusUpdate p :: (StatusUpdate <$> ps)).
    cbn [run]. unfold andThen at 1.
    assert (Hstep : step (StatusUpdate p) w
                    = ({| app := app w;
                          view := Some (onStatusUpdate p v) |}, [])).
    { unfold step, andThen. simpl. rewrite Hv. unfold commit. simpl.
      rewrite Hr. by rewrite decide_True. }
    rewrite Hstep.
    rewrite (IH _ (onStatusUpdate p v)); [done|done|exact Hr].
Qed.

(** C6, as stated, fails: [handleExecute] has sent the execution command
    to the back end while no execution screen, hence no listener, exists;
    an update emitted at that point finds no listener and is lost; the
    listener is subscribed by the commit that follows, and the status list
    then shows [db1] as [waiting]. *)
Lemma engine_called_before_listener_subscribed :
  let called :=
    onApp (handleSaveOptionSelect none false) Sample.queryScreen in
  invocations called.2
  = [add_query_to_history (js "SELECT 1") (js "local") (js "executed");
     execute_query_on_databases Sample.local [js "db1"; js "db2"]
       (js "SELECT 1") none false]
  /\ view called.1 = None
  /\ handle (StatusUpdate Sample.db1_ok) called.1 = (called.1, [])
  /\ (commit called.1).2 = [Listen statusChannel]
  /\ phases (commit called.1).1 = Some [waiting; waiting].
Proof. vm_compute. done. Qed.

(** C6, amended: the listener is subscribed by the effect of the execution
    screen, in the commit that follows an accepted [handleExecute], hence
    after the history and execution commands have been sent; from then on
    every status update delivered while the screen is mounted is applied,
    in order of arrival. *)
Theorem listener_subscribed_at_mount (w : World)
    (q : jsstring) (T : list jsstring) (so : SaveOption) (soe : bool)
    (ps : list DatabaseStatus) :
  T <> [] ->
  forallb isWhiteSpace q = false ->
  is_Some (selectedConnection (app w)) ->
  view w = None ->
  (exists c,
     selectedConnection (app w) = Some c
     /\ (onApp (handleExecute q T so soe) w).2
        = [Invoke (add_query_to_history q (conn_name c) (js "executed"));
           Invoke (execute_query_on_databases c T q so soe)]
     /\ view (onApp (handleExecute q T so soe) w).1 = None
     /\ (dispatch q T so soe w).2
        = (onApp (handleExecute q T so soe) w).2 ++ [Listen statusChannel])
  /\ session (dispatch q T so soe w).1 = Some (initialResults T)
  /\ run (StatusUpdate <$> ps) (dispatch q T so soe w).1
     = ({| app := app (dispatch q T so soe w).1;
           view := Some {| es_databases := T;
                           es_results :=
                             applyStatusUpdates ps (initialResults T) |} |},
        []).
Proof.
  intros HT Hq [c Hc] Hv.
  rewrite (dispatch_accepted w c q T so soe Hc HT Hq Hv).
  split; [|split].
  - exists c. split; [done|]. unfold onApp.
    rewrite (handleExecute_accepts (app w) c q T so soe Hc HT Hq).
    by simpl.
  - done.
  - by rewrite (run_status_updates ps _ (mountExecutionScreen T)).
Qed.

Lemma listener_subscribed_at_mount_witness :
  let w := Sample.queryScreen in
  let q := js "SELECT 1" in
  let T := [js "db1"; js "db2"] in
  let ps := [Sample.db2_ok; Sample.db1_failed] in
  (exists c,
     selectedConnection (app w) = Some c
     /\ (onApp (handleExecute q T none false) w).2
        = [Invoke (add_query_to_history q (conn_name c) (js "executed"));
           Invoke (execute_query_on_databases c T q none false)]
     /\ view (onApp (handleExecute q T none false) w).1 = None
     /\ (dispatch q T none false w).2
        = (onApp (handleExecute q T none false) w).2
          ++ [Listen statusChannel])
  /\ session (dispatch q T none false w).1 = Some (initialResults T)
  /\ run (StatusUpdate <$> ps) (dispatch q T none false w).1
     = ({| app := app (dispatch q T none false w).1;
           view := Some {| es_databases := T;
                           es_results :=
                             applyStatusUpdates ps (initialResults T) |} |},
        []).
Proof.
  intros w q T ps.
  apply (listener_subscribed_at_mount w q T none false ps).
  - discriminate.
  - reflexivity.
  - vm_compute. eexists. reflexivity.
  - reflexivity.
Defined.

(** ** Back to the query screen *)

Lemma elem_of_errorDbNames (rs : list DatabaseStatus) (n : jsstring) :
  n ∈ errorDbNames rs
  <-> exists r, r ∈ rs /\ name r = n /\ status r = error.
Proof.
  unfold errorDbNames. rewrite elem_of_list_to_set, list_elem_of_fmap.
  split.
  - intros (r & -> & Hr). apply list_elem_of_filter in Hr as [He Hr].
    by exists r.
  - intros (r & Hr & <- & He). exists r. split; [done|].
    by apply list_elem_of_filter.
Qed.

Lemma elem_of_selectedDbs (dbs : list Database) (n : jsstring) :
  n ∈ selectedDbs dbs
  <-> exists db, db ∈ dbs /\ db_name db = n /\ checked db = true.
Proof.
  unfold selectedDbs. rewrite list_elem_of_fmap. split.
  - intros (db & -> & Hdb). apply list_elem_of_filter in Hdb as [Hc Hdb].
    by exists db.
  - intros (db & Hdb & <- & Hc). exists db. split; [done|].
    by apply list_elem_of_filter.
Qed.

Lemma selectedDbs_known (dbs : list Database) (n : jsstring) :
  n ∈ selectedDbs dbs -> n ∈ db_name <$> dbs.
Proof.
  intros H. apply elem_of_selectedDbs in H as (db & Hdb & <- & _).
  by apply list_elem_of_fmap_2.
Qed.



Lemma handleReturnSelectErrors_result (st : AppState DatabaseStatus)
    (rs : list DatabaseStatus) :
  lastExecutionResults st = Some rs ->
  handleReturnSelectErrors st
  = ({| screen := query_screen; connections := connections st;
        databases := checkIfError (errorDbNames rs) <$> databases st;
        selectedConnectionId := selectedConnectionId st;
        executionData := executionData st;
        isReturnModalOpen := false;
        lastExecutionResults := lastExecutionResults st;
        query := query st; notification := notification st |}, []).
Proof.
  intros H. unfold handleReturnSelectErrors, andThen. rewrite H. simpl.
  by rewrite H.
Qed.



Lemma V1_errors_only_checks_failed_targets
    (st : AppState V1.DatabaseStatus) (rs : list V1.DatabaseStatus)
    (db : Database) :
  lastExecutionResults st = Some rs ->
  db ∈ databases (V1.handleReturnSelectErrors st).1 ->
  checked db = true
  <-> exists r, r ∈ rs /\ V1.name r = db_name db /\ V1.status r = error.
Proof.
  intros Hl. unfold V1.handleReturnSelectErrors, andThen. rewrite Hl. simpl.
  intros Hdb. apply list_elem_of_fmap in Hdb as (db0 & -> & _). simpl.
  rewrite bool_decide_eq_true. unfold V1.errorDbNames.
  rewrite elem_of_list_to_set, list_elem_of_fmap. split.
  - intros (r & -> & Hr). apply list_elem_of_filter in Hr as [He Hr].
    by exists r.
  - intros (r & Hr & <- & He). exists r. split; [done|].
    by apply list_elem_of_filter.
Qed.

(** ** The selection over a run *)

Lemma onApp_app (h : handler (AppState DatabaseStatus) command) (w : World) :
  app (onApp h w).1 = (h (app w)).1 /\ view (onApp h w).1 = view w.
Proof. unfold onApp. by destruct (h (app w)). Qed.

Lemma commit_app (w : World) : app (commit w).1 = app w.
Proof.
  unfold commit.
  destruct (rendersExecutionScreen (app w)), (view w);
    try case_decide; done.
Qed.

Lemma handleExecute_databases (st : AppState DatabaseStatus)
    (q : jsstring) (T : list jsstring) (so : SaveOption) (soe : bool) :
  databases (handleExecute q T so soe st).1 = databases st.
Proof.
  unfold handleExecute. destruct (selectedConnection st); [|done].
  by destruct ((length T =? 0)%nat || negb (truthy (trim q))).
Qed.

Lemma handle_keeps_databases (ev : event) (w : World) :
  ev <> ReturnSelectErrors ->
  databases (app (handle ev w).1) = databases (app w).
Proof.
  intros Hev. destruct ev; simpl; try done.
  - destruct (screen (app w)), (selectedConnection (app w)); try done.
    rewrite (proj1 (onApp_app _ w)). apply handleExecute_databases.
  - by destruct (view w).
  - destruct (view w); [|done]. by rewrite (proj1 (onApp_app _ w)).
  - destruct (isReturnModalOpen (app w)); [|done].
    by rewrite (proj1 (onApp_app _ w)).
  - destruct (isReturnModalOpen (app w)); [|done].
    by rewrite (proj1 (onApp_app _ w)).
Qed.

Lemma step_keeps_databases (ev : event) (w : World) :
  ev <> ReturnSelectErrors ->
  databases (app (step ev w).1) = databases (app w).
Proof.
  intros Hev. unfold step, andThen.
  pose proof (handle_keeps_databases ev w Hev) as H.
  destruct (handle ev w) as [w1 e1]. pose proof (commit_app w1) as Hc.
  destruct (commit w1) as [w2 e2]. simpl in *. congruence.
Qed.

(** Only "Somente Erros" changes the list of databases. *)
Lemma run_keeps_databases (evs : list event) (w : World) :
  ReturnSelectErrors ∉ evs ->
  databases (app (run evs w).1) = databases (app w).
Proof.
  revert w. induction evs as [|ev evs IH]; intros w Hevs; [done|].
  apply not_elem_of_cons in Hevs as [Hev Hevs].
  cbn [run]. unfold andThen.
  pose proof (step_keeps_databases ev w (not_eq_sym Hev)) as H.
  destruct (step ev w) as [w1 e1]. specialize (IH w1 Hevs).
  destruct (run evs w1) as [w2 e2]. simpl in *. congruence.
Qed.

Lemma run_cons_world (ev : event) (evs : list event) (w : World) :
  (run (ev :: evs) w).1 = (run evs (step ev w).1).1.
Proof.
  cbn [run]. unfold andThen. destruct (step ev w) as [w1 e1]. cbn [fst].
  by destruct (run evs w1).
Qed.

Lemma run_app_world (evs1 evs2 : list event) (w : World) :
  (run (evs1 ++ evs2) w).1 = (run evs2 (run evs1 w).1).1.
Proof.
  revert w. induction evs1 as [|ev evs1 IH]; intros w; [done|].
  simpl. unfold andThen. destruct (step ev w) as [w1 e1].
  specialize (IH w1).
  destruct (run (evs1 ++ evs2) w1), (run evs1 w1). simpl in *. done.
Qed.


Lemma V1_previous_selection_untouched
    (st : AppState V1.DatabaseStatus) :
  databases (handleReturnSelectPrevious (C:=V1.command) st).1 = databases st.
Proof. reflexivity. Qed.

(** From the query screen to the return dialog: execute, any status
    updates, "Voltar".  The status list handed back is the one the updates
    built from the checked databases, and the list of databases has not
    changed, so every target handed back is a known database. *)
Lemma returned_status_list (w : World) (so : SaveOption) (f : bool)
    (ps : list DatabaseStatus) :
  screen (app w) = query_screen ->
  is_Some (selectedConnection (app w)) ->
  view w = None ->
  selectedDbs (databases (app w)) <> [] ->
  forallb isWhiteSpace (query (app w)) = false ->
  let w' :=
    (run (SaveOptionSelected so f :: (StatusUpdate <$> ps) ++ [BackClicked])
       w).1 in
  let rs :=
    applyStatusUpdates ps (initialResults (selectedDbs (databases (app w))))
  in
  lastExecutionResults (app w') = Some rs
  /\ isReturnModalOpen (app w') = true
  /\ databases (app w') = databases (app w)
  /\ (forall r, r ∈ rs -> name r ∈ db_name <$> databases (app w')).
Proof.
  intros Hs [c Hc] Hv HT Hq w' rs.
  assert (Hdb : databases (app w') = databases (app w)).
  { apply run_keeps_databases. intros H.
    apply elem_of_cons in H as [|H]; [done|].
    apply elem_of_app in H as [H|H].
    - by apply list_elem_of_fmap in H as (? & ? & _).
    - by apply list_elem_of_singleton in H. }
  assert (Hstep : step (SaveOptionSelected so f) w
                  = dispatch (query (app w))
                      (selectedDbs (databases (app w))) so f w).
  { unfold step, dispatch, andThen. simpl. by rewrite Hs, Hc. }
  assert (Hw' : lastExecutionResults (app w') = Some rs
                /\ isReturnModalOpen (app w') = true).
  { subst w'. rewrite run_cons_world, Hstep.
    rewrite (dispatch_accepted w c _ _ so f Hc HT Hq Hv).
    rewrite run_app_world. cbn [fst].
    rewrite (run_status_updates ps _
               (mountExecutionScreen (selectedDbs (databases (app w)))));
      [|done..].
    cbn [run fst]. unfold andThen, step, skip, andThen, commit. simpl.
    by rewrite decide_True. }
  destruct Hw' as [Hl Hm]. split; [done|]. split; [done|]. split; [done|].
  intros r Hr. rewrite Hdb. apply selectedDbs_known.
  apply (list_elem_of_fmap_2 name) in Hr. subst rs.
  by rewrite applyStatusUpdates_names, initialResults_names in Hr.
Qed.

(** ** A run from start to end

    Three databases are executed; [db3] succeeds first, then [db1] fails
    with "timeout", then [db2] succeeds.  No phase is [waiting] any more,
    and "Somente Erros" leaves [db1] alone checked. *)
Example three_targets_one_failure :
  let finished :=
    (run [SaveOptionSelected none false; StatusUpdate Sample.db3_ok;
          StatusUpdate Sample.db1_failed; StatusUpdate Sample.db2_changed]
       Sample.allChecked).1 in
  let returned := (run [BackClicked; ReturnSelectErrors] finished).1 in
  phases finished = Some [error; success; success]
  /\ screen (app returned) = query_screen
  /\ view returned = None
  /\ checkedNames (databases (app returned)) = {[ js "db1" ]}
  /\ checked <$> databases (app returned) = [true; false; false].
Proof. vm_compute. done. Qed.

(** * Further properties *)

(** ** When [handleExecute] sends *)

(** [handleExecute] sends commands to the back end exactly when a
    connection is selected, at least one target is given and the script has
    a character that is not white space. *)
Theorem handleExecute_sends_iff (st : AppState DatabaseStatus)
    (q : jsstring) (T : list jsstring) (so : SaveOption) (soe : bool) :
  invocations (handleExecute q T so soe st).2 <> []
  <-> is_Some (selectedConnection st) /\ T <> []
      /\ forallb isWhiteSpace q = false.
Proof.
  split.
  - intros H. destruct (selectedConnection st) as [c|] eqn:Hc.
    + split; [by eexists|].
      destruct T as [|n T].
      { rewrite handleExecute_rejects in H by by right. done. }
      split; [done|].
      destruct (forallb isWhiteSpace q) eqn:Hq; [|done].
      rewrite handleExecute_rejects in H by by left. done.
    + unfold handleExecute in H. rewrite Hc in H. done.
  - intros ([c Hc] & HT & Hq).
    by rewrite (handleExecute_accepts st c q T so soe Hc HT Hq).
Qed.

(** The earlier snapshot has no test of the connection: a script with a
    visible character and a target list that is not empty are sent
    whatever [selectedConnection] is, [undefined] included. *)
Theorem V1_handleExecute_sends_without_connection
    (st : AppState V1.DatabaseStatus)
    (q : jsstring) (T : list jsstring) (so : SaveOption) :
  T <> [] ->
  forallb isWhiteSpace q = false ->
  (V1.handleExecute q T so st).2
  = [Invoke (V1.execute_query_on_databases (selectedConnection st) T q so)]
  /\ screen (V1.handleExecute q T so st).1 = execution_screen
  /\ executionData (V1.handleExecute q T so st).1 = Some (q, T).
Proof.
  intros HT Hq. unfold V1.handleExecute.
  destruct T as [|n T]; [done|]. simpl length.
  assert (Hb : negb (truthy (trim q)) = false).
  { destruct (negb (truthy (trim q))) eqn:E; [|done].
    apply truthy_trim_false in E. congruence. }
  cbn [Nat.eqb]. rewrite Hb. done.
Qed.

Lemma V1_handleExecute_sends_without_connection_witness :
  let st : AppState V1.DatabaseStatus :=
    {| screen := query_screen; connections := [Sample.local];
       databases := [Sample.db "db1" true];
       selectedConnectionId := None;
       executionData := None; isReturnModalOpen := false;
       lastExecutionResults := None; query := [];
       notification := None |} in
  (V1.handleExecute (js "SELECT 1") [js "db1"] none st).2
  = [Invoke (V1.execute_query_on_databases None [js "db1"]
               (js "SELECT 1") none)]
  /\ screen (V1.handleExecute (js "SELECT 1") [js "db1"] none st).1
     = execution_screen
  /\ executionData (V1.handleExecute (js "SELECT 1") [js "db1"] none st).1
     = Some (js "SELECT 1", [js "db1"]).
Proof.
  intros st.
  apply (V1_handleExecute_sends_without_connection st (js "SELECT 1")
           [js "db1"] none).
  - discriminate.
  - reflexivity.
Defined.

(** ** The check boxes of the query screen *)

Lemma withChecked_id (db : Database) : withChecked (checked db) db = db.
Proof. by destruct db. Qed.

Lemma toggleIfId_twice (dbId : jsstring) (db : Database) :
  toggleIfId dbId (toggleIfId dbId db) = db.
Proof.
  unfold toggleIfId. destruct (decide (db_id db = dbId)) as [H|H].
  - simpl. rewrite decide_True by done. destruct db as [i n c s]. simpl.
    unfold withChecked. simpl. by rewrite negb_involutive.
  - by rewrite decide_False.
Qed.

Lemma toggleIfId_fields (dbId : jsstring) (db : Database) :
  db_id (toggleIfId dbId db) = db_id db
  /\ db_name (toggleIfId dbId db) = db_name db
  /\ db_status (toggleIfId dbId db) = db_status db.
Proof. unfold toggleIfId. by case_decide. Qed.

(** Clicking a check box twice restores the list; a click changes no id
    and no name, and it leaves the list as it was exactly when no database
    has the id clicked. *)
Theorem handleDbCheck_twice (st : AppState DatabaseStatus)
    (dbId : jsstring) :
  databases (handleDbCheck (C:=command) dbId
               (handleDbCheck (C:=command) dbId st).1).1
  = databases st
  /\ db_id <$> databases (handleDbCheck (C:=command) dbId st).1
     = db_id <$> databases st
  /\ db_name <$> databases (handleDbCheck (C:=command) dbId st).1
     = db_name <$> databases st
  /\ (databases (handleDbCheck (C:=command) dbId st).1 = databases st
      <-> dbId ∉ db_id <$> databases st).
Proof.
  simpl. generalize (databases st) as dbs. intros dbs.
  split; [|split; [|split; [|split]]].
  - induction dbs as [|db dbs IH]; csimpl; [done|].
    by rewrite toggleIfId_twice, IH.
  - induction dbs as [|db dbs IH]; csimpl; [done|].
    by rewrite IH, (proj1 (toggleIfId_fields dbId db)).
  - induction dbs as [|db dbs IH]; csimpl; [done|].
    by rewrite IH, (proj1 (proj2 (toggleIfId_fields dbId db))).
  - induction dbs as [|db dbs IH]; csimpl; [by intros _ ?%elem_of_nil|].
    intros H. injection H as Hdb Hdbs. apply not_elem_of_cons.
    split; [|by apply IH].
    intros ->. unfold toggleIfId in Hdb. rewrite decide_True in Hdb by done.
    apply (f_equal checked) in Hdb. simpl in Hdb. by destruct (checked db).
  - induction dbs as [|db dbs IH]; csimpl; [done|].
    intros H. apply not_elem_of_cons in H as [Hne H].
    rewrite (IH H). unfold toggleIfId. by rewrite decide_False.
Qed.

(** When the ids are pairwise distinct, a click on the check box of the
    database at position [k] flips that database and no other. *)
Theorem handleDbCheck_flips_one (st : AppState DatabaseStatus)
    (k : nat) (db : Database) :
  NoDup (db_id <$> databases st) ->
  databases st !! k = Some db ->
  databases (handleDbCheck (C:=command) (db_id db) st).1
  = <[k := withChecked (negb (checked db)) db]> (databases st).
Proof.
  simpl. generalize (databases st) as dbs. intros dbs.
  revert k. induction dbs as [|d dbs IH]; intros k Hnd Hk; [done|].
  csimpl in *. apply NoDup_cons in Hnd as [Hd Hnd].
  destruct k as [|k]; simpl in *.
  - injection Hk as ->. unfold toggleIfId at 1. rewrite decide_True by done.
    f_equal. clear IH Hnd.
    induction dbs as [|e dbs IH]; csimpl; [done|].
    apply not_elem_of_cons in Hd as [Hne Hd].
    rewrite (IH Hd). unfold toggleIfId. by rewrite decide_False.
  - rewrite (IH k Hnd Hk). unfold toggleIfId at 1.
    rewrite decide_False; [done|].
    intros Heq. apply Hd. rewrite Heq.
    apply list_elem_of_fmap_2. by eapply list_elem_of_lookup_2.
Qed.

Lemma handleDbCheck_flips_one_witness :
  databases (handleDbCheck (C:=command) (js "db2")
               (app Sample.queryScreen)).1
  = <[1%nat := withChecked false (Sample.db "db2" true)]>
      (databases (app Sample.queryScreen)).
Proof.
  apply (handleDbCheck_flips_one (app Sample.queryScreen) 1
           (Sample.db "db2" true)).
  - apply (bool_decide_unpack _). vm_compute. exact I.
  - reflexivity.
Defined.

Lemma forallb_Forall_true {A} (f : A -> bool) (l : list A) :
  forallb f l = true <-> Forall (fun x => f x = true) l.
Proof.
  induction l as [|x l IH]; simpl; [done|].
  rewrite andb_true_iff, IH, Forall_cons. done.
Qed.

Lemma selectedDbs_all_checked (dbs : list Database) :
  Forall (fun db => checked db = true) dbs ->
  selectedDbs dbs = db_name <$> dbs.
Proof.
  unfold selectedDbs. induction 1 as [|db dbs Hdb _ IH]; [done|].
  rewrite filter_cons_True by done. csimpl. by rewrite IH.
Qed.

Lemma selectedDbs_none_checked (dbs : list Database) :
  Forall (fun db => checked db = false) dbs -> selectedDbs dbs = [].
Proof.
  unfold selectedDbs. induction 1 as [|db dbs Hdb _ IH]; [done|].
  rewrite filter_cons_False; [done|]. by rewrite Hdb.
Qed.

Lemma selectedDbs_all_inv (dbs : list Database) :
  selectedDbs dbs = db_name <$> dbs ->
  Forall (fun db => checked db = true) dbs.
Proof.
  induction dbs as [|db dbs IH]; [done|]. intros H.
  destruct (checked db) eqn:Hc.
  - unfold selectedDbs in H. rewrite filter_cons_True in H by done.
    csimpl in H. injection H as H. constructor; [done|by apply IH].
  - unfold selectedDbs in H. rewrite filter_cons_False in H
      by by rewrite Hc.
    apply (f_equal length) in H. rewrite !length_fmap in H.
    pose proof (length_filter (fun db => checked db = true) dbs) as Hle.
    simpl in H. lia.
Qed.

(** "Todos" is ticked exactly when there is a database and the targets of
    an execution would be all of them. *)
Theorem isAllSelected_iff (dbs : list Database) :
  isAllSelected dbs = true
  <-> dbs <> [] /\ selectedDbs dbs = db_name <$> dbs.
Proof.
  unfold isAllSelected. destruct dbs as [|db dbs]; [by split; [|intros []]|].
  cbn [length Nat.ltb Nat.leb]. split.
  - intros H. split; [done|]. apply selectedDbs_all_checked.
    by apply forallb_Forall_true.
  - intros [_ H]. apply selectedDbs_all_inv in H.
    by apply forallb_Forall_true.
Qed.

Lemma Forall_withChecked (c : bool) (dbs : list Database) :
  Forall (fun db => checked db = c) (withChecked c <$> dbs).
Proof. induction dbs; csimpl; by constructor. Qed.

Lemma withChecked_names (c : bool) (dbs : list Database) :
  db_name <$> (withChecked c <$> dbs) = db_name <$> dbs.
Proof. induction dbs as [|db dbs IH]; csimpl; [done|]. by rewrite IH. Qed.

(** Ticking "Todos" makes every database a target, in the order of the
    list; unticking it leaves no target, and an execution asked for then is
    refused with the banner and sends nothing. *)
Theorem handleSelectAll_all_or_none (st : AppState DatabaseStatus)
    (so : SaveOption) (f : bool) :
  selectedDbs (databases (handleSelectAll (C:=command) true st).1)
  = db_name <$> databases st
  /\ selectedDbs (databases (handleSelectAll (C:=command) false st).1) = []
  /\ handleSaveOptionSelect so f (handleSelectAll (C:=command) false st).1
     = showNotification checkInputsMessage
         (handleSelectAll (C:=command) false st).1
  /\ invocations
       (handleSaveOptionSelect so f
          (handleSelectAll (C:=command) false st).1).2 = [].
Proof.
  assert (Hnone : selectedDbs
                    (databases (handleSelectAll (C:=command) false st).1)
                  = []).
  { simpl. apply selectedDbs_none_checked, Forall_withChecked. }
  split; [|split; [done|]].
  - simpl. rewrite selectedDbs_all_checked by apply Forall_withChecked.
    apply withChecked_names.
  - unfold handleSaveOptionSelect. rewrite Hnone.
    rewrite handleExecute_rejects by by right. done.
Qed.

(** ** "Somente Erros" and the check boxes *)

Lemma selectedDbs_checkIfError (errs : gset jsstring) (dbs : list Database) :
  selectedDbs (checkIfError errs <$> dbs)
  = filter (fun n => n ∈ errs) (db_name <$> dbs).
Proof.
  unfold selectedDbs. induction dbs as [|db dbs IH]; csimpl; [done|].
  destruct (decide (db_name db ∈ errs)) as [Hin|Hin].
  - rewrite filter_cons_True by (simpl; by apply bool_decide_eq_true).
    rewrite (filter_cons_True (fun n => n ∈ errs)) by done.
    csimpl. by rewrite IH.
  - rewrite filter_cons_False
      by (simpl; rewrite bool_decide_eq_true; tauto).
    by rewrite (filter_cons_False (fun n => n ∈ errs)).
Qed.

Lemma step_save_option (w : World) (c : Connection) (so : SaveOption)
    (f : bool) :
  screen (app w) = query_screen ->
  selectedConnection (app w) = Some c ->
  step (SaveOptionSelected so f) w
  = dispatch (query (app w)) (selectedDbs (databases (app w))) so f w.
Proof.
  intros Hs Hc. unfold step, dispatch, andThen. simpl. by rewrite Hs, Hc.
Qed.

Lemma handleReturnSelectErrors_screen (st : AppState DatabaseStatus) :
  screen (handleReturnSelectErrors st).1 = query_screen
  /\ connections (handleReturnSelectErrors st).1 = connections st
  /\ selectedConnectionId (handleReturnSelectErrors st).1
     = selectedConnectionId st
  /\ query (handleReturnSelectErrors st).1 = query st
  /\ (handleReturnSelectErrors st).2 = [].
Proof.
  unfold handleReturnSelectErrors, andThen.
  by destruct (lastExecutionResults st).
Qed.

Lemma selectedConnection_ext {R R'} (st : AppState R) (st' : AppState R') :
  connections st = connections st' ->
  selectedConnectionId st = selectedConnectionId st' ->
  selectedConnection st = selectedConnection st'.
Proof. unfold selectedConnection. by intros -> ->. Qed.

(** Leaving through either button of the return dialog unmounts the
    execution screen. *)
Lemma step_return (ev : event) (w : World) :
  ev = ReturnSelectPrevious \/ ev = ReturnSelectErrors ->
  isReturnModalOpen (app w) = true ->
  step ev w
  = ({| app :=
          (match ev with
           | ReturnSelectErrors => handleReturnSelectErrors (app w)
           | _ => handleReturnSelectPrevious (C:=command) (app w)
           end).1;
        view := None |},
     match view w with
     | Some _ => [Unlisten statusChannel]
     | None => []
     end).
Proof.
  intros [-> | ->] Hopen; unfold step, andThen; simpl; rewrite Hopen.
  - unfold commit. simpl. by destruct (view w).
  - unfold onApp.
    pose proof (handleReturnSelectErrors_screen (app w))
      as (Hs & _ & _ & _ & He).
    destruct (handleReturnSelectErrors (app w)) as [st es]. simpl in *.
    subst es. unfold commit, rendersExecutionScreen. simpl. rewrite Hs.
    by destruct (view w).
Qed.

Lemma run_status_updates_unmounted (ps : list DatabaseStatus) (w : World) :
  view w = None ->
  rendersExecutionScreen (app w) = None ->
  run (StatusUpdate <$> ps) w = (w, []).
Proof.
  intros Hv Hr. induction ps as [|p ps IH]; [done|].
  change (StatusUpdate <$> p :: ps)
    with (StatusUpdate p :: (StatusUpdate <$> ps)).
  cbn [run]. unfold andThen at 1.
  assert (Hstep : step (StatusUpdate p) w = (w, [])).
  { unfold step, andThen. simpl. rewrite Hv. unfold commit.
    by rewrite Hr, Hv. }
  rewrite Hstep. by rewrite IH.
Qed.

(** In the state [handleReturnSelectErrors] leaves, the checked
    databases, by name and in the order of the list, are the names of the
    list that are names of a failed entry of the status list handed back.
    (How long that state lasts differs between the snapshots: in the
    later one the reload that follows the return replaces the list, in
    the earlier one nothing is reloaded.) *)
Theorem errors_only_checked_in_order (st : AppState DatabaseStatus)
    (rs : list DatabaseStatus) :
  lastExecutionResults st = Some rs ->
  selectedDbs (databases (handleReturnSelectErrors st).1)
  = filter (fun n => n ∈ errorDbNames rs) (db_name <$> databases st).
Proof.
  intros H. rewrite (handleReturnSelectErrors_result st rs H). simpl.
  apply selectedDbs_checkIfError.
Qed.

Lemma errors_only_checked_in_order_witness :
  let st :=
    app (run [SaveOptionSelected none false; StatusUpdate Sample.db2_ok;
              StatusUpdate Sample.db1_failed; BackClicked]
           Sample.queryScreen).1 in
  selectedDbs (databases (handleReturnSelectErrors st).1)
  = filter (fun n => n ∈ errorDbNames [Sample.db1_failed; Sample.db2_ok])
      (db_name <$> databases st).
Proof.
  intros st.
  apply (errors_only_checked_in_order st [Sample.db1_failed; Sample.db2_ok]).
  reflexivity.
Defined.

(** ** The log dialog *)

Lemma elem_of_errorLogs (rs : list DatabaseStatus) (r : DatabaseStatus) :
  r ∈ errorLogs rs <-> r ∈ rs /\ status r = error /\ hasLog r = true.
Proof. unfold errorLogs. rewrite list_elem_of_filter. tauto. Qed.

Lemma errorLogs_initialResults (T : list jsstring) :
  errorLogs (initialResults T) = [].
Proof.
  unfold errorLogs, initialResults.
  induction T as [|n T IH]; csimpl; [done|].
  rewrite filter_cons_False; [done|]. simpl. by intros [? _].
Qed.

(** Every target listed in the log dialog is one that "Somente Erros"
    checks, and right after a dispatch the dialog has no entry, so its
    button is disabled. *)
Theorem errorLogs_within_failed (rs : list DatabaseStatus)
    (T : list jsstring) :
  list_to_set (name <$> errorLogs rs) ⊆ errorDbNames rs
  /\ errorLogs (initialResults T) = []
  /\ logsDisabled (initialResults T) = true.
Proof.
  split; [|split].
  - intros n Hn. apply elem_of_list_to_set in Hn.
    apply list_elem_of_fmap in Hn as (r & -> & Hr).
    apply elem_of_errorLogs in Hr as (Hr & He & _).
    apply elem_of_errorDbNames. by exists r.
  - apply errorLogs_initialResults.
  - unfold logsDisabled. by rewrite errorLogs_initialResults.
Qed.

(** A failed target whose snapshot carries no log, or an empty one, is
    checked by "Somente Erros" but has no entry in the log dialog; when no
    snapshot carries a log the dialog's button stays disabled. *)
Theorem failure_without_log_not_listed (rs : list DatabaseStatus)
    (r : DatabaseStatus) :
  r ∈ rs ->
  status r = error ->
  hasLog r = false ->
  name r ∈ errorDbNames rs
  /\ (r ∉ errorLogs rs)
  /\ ((forall r', r' ∈ rs -> hasLog r' = false) -> logsDisabled rs = true).
Proof.
  intros Hr He Hl. split; [|split].
  - apply elem_of_errorDbNames. by exists r.
  - rewrite elem_of_errorLogs. intros (_ & _ & H). congruence.
  - intros Hall. unfold logsDisabled.
    assert (H : errorLogs rs = []); [|by rewrite H].
    destruct (errorLogs rs) as [|x xs] eqn:E; [done|].
    assert (Hx : x ∈ errorLogs rs) by (rewrite E; apply list_elem_of_here).
    apply elem_of_errorLogs in Hx as (Hx & _ & Hlog).
    rewrite (Hall x Hx) in Hlog. done.
Qed.

Lemma failure_without_log_not_listed_witness :
  let r := Sample.snapshot "db1" error None [] in
  let rs := [r; Sample.db2_ok] in
  name r ∈ errorDbNames rs
  /\ (r ∉ errorLogs rs)
  /\ ((forall r', r' ∈ rs -> hasLog r' = false) -> logsDisabled rs = true).
Proof.
  intros r rs. apply (failure_without_log_not_listed rs r).
  - apply list_elem_of_here.
  - reflexivity.
  - reflexivity.
Defined.

(** ** The return dialog *)

Lemma step_back (w : World) (v : ExecutionScreenState) :
  view w = Some v ->
  rendersExecutionScreen (app w) = Some (es_databases v) ->
  step BackClicked w
  = ({| app := (handleBackFromExecution (es_results v) (app w)).1;
        view := Some v |}, []).
Proof.
  intros Hv Hr. unfold step, andThen. simpl. rewrite Hv.
  unfold onApp, commit. simpl.
  unfold rendersExecutionScreen in *. simpl. rewrite Hr, Hv.
  by rewrite decide_True.
Qed.

(** "Somente Erros" works on the status list as it was when "Voltar" was
    pressed: updates that arrive while the return dialog is open are
    applied to the list on screen but play no part in the selection. *)
Theorem errors_only_uses_snapshot (w : World) (v : ExecutionScreenState)
    (ps : list DatabaseStatus) :
  view w = Some v ->
  rendersExecutionScreen (app w) = Some (es_databases v) ->
  session (run (BackClicked :: (StatusUpdate <$> ps)) w).1
  = Some (applyStatusUpdates ps (es_results v))
  /\ databases
       (app (run ((BackClicked :: (StatusUpdate <$> ps))
                  ++ [ReturnSelectErrors]) w).1)
     = checkIfError (errorDbNames (es_results v)) <$> databases (app w).
Proof.
  intros Hv Hr.
  assert (Hrun : run (BackClicked :: (StatusUpdate <$> ps)) w
                 = ({| app := (handleBackFromExecution (es_results v)
                                 (app w)).1;
                       view := Some {| es_databases := es_databases v;
                                       es_results :=
                                         applyStatusUpdates ps
                                           (es_results v) |} |}, [])).
  { cbn [run]. unfold andThen at 1. rewrite (step_back w v Hv Hr).
    by rewrite (run_status_updates ps _ v). }
  split; [by rewrite Hrun|].
  rewrite run_app_world, Hrun. cbn [fst]. rewrite run_cons_world.
  rewrite (step_return ReturnSelectErrors) by (by right || done).
  cbn [run skip fst app].
  by erewrite handleReturnSelectErrors_result by done.
Qed.

Lemma errors_only_uses_snapshot_witness :
  let w :=
    (run [SaveOptionSelected none false; StatusUpdate Sample.db1_ok]
       Sample.queryScreen).1 in
  let v :=
    {| es_databases := [js "db1"; js "db2"];
       es_results :=
         [Sample.db1_ok; Sample.snapshot "db2" waiting None []] |} in
  let ps := [Sample.snapshot "db2" error (Some (js "timeout")) []] in
  session (run (BackClicked :: (StatusUpdate <$> ps)) w).1
  = Some (applyStatusUpdates ps (es_results v))
  /\ databases
       (app (run ((BackClicked :: (StatusUpdate <$> ps))
                  ++ [ReturnSelectErrors]) w).1)
     = checkIfError (errorDbNames (es_results v)) <$> databases (app w).
Proof.
  intros w v ps. apply (errors_only_uses_snapshot w v ps); reflexivity.
Defined.

(** Leaving the execution screen through either button of the return
    dialog unsubscribes the listener; status updates that arrive later
    change nothing and cause no call. *)
Theorem leaving_unsubscribes (w : World) (v : ExecutionScreenState)
    (ev : event) (ps : list DatabaseStatus) :
  ev = ReturnSelectPrevious \/ ev = ReturnSelectErrors ->
  view w = Some v ->
  isReturnModalOpen (app w) = true ->
  (step ev w).2 = [Unlisten statusChannel]
  /\ view (step ev w).1 = None
  /\ screen (app (step ev w).1) = query_screen
  /\ run (StatusUpdate <$> ps) (step ev w).1 = ((step ev w).1, []).
Proof.
  intros Hev Hv Hopen. rewrite (step_return ev w Hev Hopen), Hv.
  assert (Hs : screen
                 (match ev with
                  | ReturnSelectErrors => handleReturnSelectErrors (app w)
                  | _ => handleReturnSelectPrevious (C:=command) (app w)
                  end).1 = query_screen).
  { destruct Hev as [-> | ->]; [done|].
    apply handleReturnSelectErrors_screen. }
  split; [done|]. split; [done|]. split; [done|].
  apply run_status_updates_unmounted; [done|].
  unfold rendersExecutionScreen. cbn [app fst]. by rewrite Hs.
Qed.

Lemma leaving_unsubscribes_witness :
  let w :=
    (run [SaveOptionSelected none false; StatusUpdate Sample.db1_ok;
          BackClicked] Sample.queryScreen).1 in
  let ps := [Sample.db2_ok; Sample.db1_failed] in
  (step ReturnSelectPrevious w).2 = [Unlisten statusChannel]
  /\ view (step ReturnSelectPrevious w).1 = None
  /\ screen (app (step ReturnSelectPrevious w).1) = query_screen
  /\ run (StatusUpdate <$> ps) (step ReturnSelectPrevious w).1
     = ((step ReturnSelectPrevious w).1, []).
Proof.
  intros w ps.
  apply (leaving_unsubscribes w
           {| es_databases := [js "db1"; js "db2"];
              es_results :=
                [Sample.db1_ok; Sample.snapshot "db2" waiting None []] |}
           ReturnSelectPrevious ps).
  - by left.
  - reflexivity.
  - reflexivity.
Defined.

(** ** The execution screen over any run *)

Lemma commit_mountedAsRendered (w : World) :
  (forall v, view w = Some v -> name <$> es_results v = es_databases v) ->
  mountedAsRendered (commit w).1.
Proof.
  intros Hn. unfold mountedAsRendered, commit.
  destruct (rendersExecutionScreen (app w)) as [dbs|] eqn:Hr,
           (view w) as [v|] eqn:Hv; simpl.
  - case_decide as Hd; simpl.
    + rewrite Hv, Hr, Hd. split; [done|]. rewrite <- Hd. by apply Hn.
    + rewrite Hr. split; [done|]. apply initialResults_names.
  - rewrite Hr. split; [done|]. apply initialResults_names.
  - done.
  - by rewrite Hv.
Qed.

Lemma handle_keeps_view_names (ev : event) (w : World) :
  (forall v, view w = Some v -> name <$> es_results v = es_databases v) ->
  forall v, view (handle ev w).1 = Some v ->
            name <$> es_results v = es_databases v.
Proof.
  intros Hn v. destruct ev; unfold handle.
  - destruct (screen (app w)), (selectedConnection (app w));
      rewrite ?(proj2 (onApp_app _ w)); apply Hn.
  - destruct (view w) as [v0|] eqn:Hv; [|cbn [fst]; by rewrite Hv].
    cbn [fst view]. intros [= <-]. simpl.
    rewrite applyStatusUpdate_replace, replaceByName_keys. by apply Hn.
  - destruct (view w) as [v0|] eqn:Hv; [|cbn [fst]; by rewrite Hv].
    rewrite (proj2 (onApp_app _ w)), Hv. apply Hn.
  - destruct (isReturnModalOpen (app w));
      rewrite ?(proj2 (onApp_app _ w)); apply Hn.
  - destruct (isReturnModalOpen (app w));
      rewrite ?(proj2 (onApp_app _ w)); apply Hn.
  - destruct (isReturnModalOpen (app w));
      rewrite ?(proj2 (onApp_app _ w)); apply Hn.
  - rewrite (proj2 (onApp_app _ w)). apply Hn.
Qed.

Lemma mountedAsRendered_view_names (w : World) :
  mountedAsRendered w ->
  forall v, view w = Some v -> name <$> es_results v = es_databases v.
Proof. unfold mountedAsRendered. intros H v Hv. rewrite Hv in H. tauto. Qed.

Lemma step_mountedAsRendered (ev : event) (w : World) :
  mountedAsRendered w -> mountedAsRendered (step ev w).1.
Proof.
  intros H. unfold step, andThen.
  pose proof (handle_keeps_view_names ev w
                (mountedAsRendered_view_names w H)) as Hn.
  destruct (handle ev w) as [w1 e1]. simpl in Hn.
  pose proof (commit_mountedAsRendered w1 Hn) as Hc.
  by destruct (commit w1).
Qed.

(** Whatever the events, the execution screen is mounted exactly when
    [App] renders it, and its status list then names the dispatched
    databases, one entry each, in dispatch order. *)
Theorem run_mountedAsRendered (evs : list event) (w : World) :
  mountedAsRendered w -> mountedAsRendered (run evs w).1.
Proof.
  revert w. induction evs as [|ev evs IH]; intros w H; [done|].
  rewrite run_cons_world. by apply IH, step_mountedAsRendered.
Qed.

Lemma run_mountedAsRendered_witness :
  mountedAsRendered
    (run [SaveOptionSelected none false; StatusUpdate Sample.db1_failed;
          BackClicked; ReturnCancel; StatusUpdate Sample.db9_ok]
       Sample.queryScreen).1.
Proof.
  apply (run_mountedAsRendered
           [SaveOptionSelected none false; StatusUpdate Sample.db1_failed;
            BackClicked; ReturnCancel; StatusUpdate Sample.db9_ok]
           Sample.queryScreen).
  reflexivity.
Defined.

(** ** The banner *)

(** No timer is ever cancelled: when two executions are refused one after
    the other, two timers are armed, and the first to fire clears the
    banner of the second refusal. *)
Theorem banner_cleared_by_earlier_timer (w : World) (so so' : SaveOption)
    (f f' : bool) :
  screen (app w) = query_screen ->
  is_Some (selectedConnection (app w)) ->
  view w = None ->
  selectedDbs (databases (app w)) = [] ->
  let shown :=
    run [SaveOptionSelected so f; SaveOptionSelected so' f'] w in
  shown.2 = [SetTimeout 3000; SetTimeout 3000]
  /\ notification (app shown.1) = Some checkInputsMessage
  /\ notification (app (step NotificationTimeout shown.1).1) = None.
Proof.
  intros Hs [c Hc] Hv HT shown. subst shown.
  assert (Hstep : forall o g n,
            step (SaveOptionSelected o g)
              {| app := (setNotification (C:=command) n (app w)).1;
                 view := None |}
            = ({| app := (setNotification (C:=command)
                            (Some checkInputsMessage) (app w)).1;
                  view := None |}, [SetTimeout 3000])).
  { intros o g n.
    erewrite step_save_option;
      [|exact Hs|rewrite <- Hc; by apply selectedConnection_ext].
    unfold dispatch, andThen, onApp. cbn [app databases fst].
    simpl databases. rewrite HT.
    rewrite handleExecute_rejects by by right.
    unfold commit, rendersExecutionScreen. simpl. by rewrite Hs. }
  assert (Hw : w = {| app := (setNotification (C:=command)
                                (notification (app w)) (app w)).1;
                      view := None |}).
  { destruct w as [[] ?]. simpl in *. by subst. }
  assert (Hrun : run [SaveOptionSelected so f; SaveOptionSelected so' f'] w
                 = ({| app := (setNotification (C:=command)
                                 (Some checkInputsMessage) (app w)).1;
                       view := None |},
                    [SetTimeout 3000; SetTimeout 3000])).
  { rewrite Hw at 1. cbn [run]. unfold andThen at 1. rewrite Hstep.
    unfold andThen at 1. by rewrite Hstep. }
  rewrite Hrun. split; [done|]. split; [done|].
  unfold step, andThen. simpl. unfold commit, rendersExecutionScreen.
  simpl. by rewrite Hs.
Qed.

Lemma banner_cleared_by_earlier_timer_witness :
  let w := (run [SaveOptionSelected none false;
                 StatusUpdate Sample.db1_ok; StatusUpdate Sample.db2_ok;
                 BackClicked; ReturnSelectErrors] Sample.queryScreen).1 in
  let shown :=
    run [SaveOptionSelected none false; SaveOptionSelected single true] w in
  shown.2 = [SetTimeout 3000; SetTimeout 3000]
  /\ notification (app shown.1) = Some checkInputsMessage
  /\ notification (app (step NotificationTimeout shown.1).1) = None.
Proof.
  intros w.
  apply (banner_cleared_by_earlier_timer w none single false true).
  - reflexivity.
  - vm_compute. eexists. reflexivity.
  - reflexivity.
  - reflexivity.
Defined.

(** ** The result dialog *)

Lemma renderResultModal_closed (m : ResultModal) :
  isResultModalOpen m = false -> renderResultModal m = Rendered Hidden.
Proof. unfold renderResultModal. by intros ->. Qed.

Lemma renderResultModal_open (rs : list ExecutionResult) (i : nat) :
  rs <> [] ->
  renderResultModal
    {| isResultModalOpen := true; selectedResults := Some rs;
       activeTabIndex := i |}
  = match rs !! i with
    | Some a => Rendered (Showing (length rs) a)
    | None => Throws
    end.
Proof. by destruct rs. Qed.

Lemma modalStep_view (m : ResultModal)
    (rs : list ExecutionResult) :
  isResultModalOpen m = false ->
  rs <> [] ->
  modalStep (ViewResultClicked rs) m
  = if decide (activeTabIndex m < length rs)%nat
    then Rendered {| isResultModalOpen := true; selectedResults := Some rs;
                     activeTabIndex := 0 |}
    else Throws.
Proof.
  intros Hm Hrs. unfold modalStep, commitResultModal. simpl. rewrite Hm.
  destruct rs as [|r rs]; [done|]. cbn [handleViewResult].
  rewrite renderResultModal_open by done.
  case_decide as Hi.
  - destruct (lookup_lt_is_Some_2 (r :: rs) _ Hi) as [a ->].
    unfold resetTabEffect, modalDeps. cbn [isResultModalOpen selectedResults].
    rewrite Hm. rewrite decide_False by (intros [=]). by simpl.
  - rewrite lookup_ge_None_2; [done|]. lia.
Qed.

(** Opening the dialog on a list of results works exactly when the list is
    longer than the tab index left from the last time; the effect then
    makes the first tab active.  Otherwise the render throws. *)
Theorem view_result_renders_iff (m : ResultModal)
    (rs : list ExecutionResult) :
  isResultModalOpen m = false ->
  rs <> [] ->
  modalStep (ViewResultClicked rs) m
  = if decide (activeTabIndex m < length rs)%nat
    then Rendered {| isResultModalOpen := true; selectedResults := Some rs;
                     activeTabIndex := 0 |}
    else Throws.
Proof. apply modalStep_view. Qed.

Lemma view_result_renders_iff_witness :
  modalStep (ViewResultClicked [mutation_result 1; mutation_result 2])
    initialResultModal
  = if decide (0 < 2)%nat
    then Rendered {| isResultModalOpen := true;
                     selectedResults :=
                       Some [mutation_result 1; mutation_result 2];
                     activeTabIndex := 0 |}
    else Throws.
Proof.
  apply (view_result_renders_iff initialResultModal
           [mutation_result 1; mutation_result 2]).
  - reflexivity.
  - discriminate.
Defined.

Lemma modalStep_tab (rs : list ExecutionResult) (i j : nat) :
  (j < length rs)%nat ->
  (i < length rs)%nat ->
  modalStep (TabClicked i)
    {| isResultModalOpen := true; selectedResults := Some rs;
       activeTabIndex := j |}
  = Rendered {| isResultModalOpen := true; selectedResults := Some rs;
                activeTabIndex := i |}.
Proof.
  intros Hj Hi.
  assert (Hrs : rs <> []) by (destruct rs; simpl in *; [lia|done]).
  unfold modalStep, commitResultModal, handleModalEvent.
  rewrite renderResultModal_open by done.
  destruct (lookup_lt_is_Some_2 rs _ Hj) as [a ->].
  apply Nat.ltb_lt in Hi as Hib. rewrite Hib.
  unfold setActiveTabIndex. cbn [isResultModalOpen selectedResults].
  rewrite renderResultModal_open by done.
  destruct (lookup_lt_is_Some_2 rs _ Hi) as [b Hb]. rewrite Hb.
  unfold resetTabEffect, modalDeps. cbn [isResultModalOpen selectedResults].
  rewrite decide_True by done.
  rewrite renderResultModal_open by done. by rewrite Hb.
Qed.

Lemma modalStep_close (rs : list ExecutionResult) (i : nat) :
  (i < length rs)%nat ->
  modalStep ResultModalClosed
    {| isResultModalOpen := true; selectedResults := Some rs;
       activeTabIndex := i |}
  = Rendered {| isResultModalOpen := false; selectedResults := Some rs;
                activeTabIndex := i |}.
Proof.
  intros Hi.
  assert (Hrs : rs <> []) by (destruct rs; simpl in *; [lia|done]).
  unfold modalStep, commitResultModal, handleModalEvent.
  rewrite renderResultModal_open by done.
  destruct (lookup_lt_is_Some_2 rs _ Hi) as [a ->].
  unfold setIsResultModalOpen. cbn [isResultModalOpen selectedResults].
  rewrite renderResultModal_closed by done.
  unfold resetTabEffect, modalDeps. cbn [isResultModalOpen selectedResults].
  rewrite decide_False by (intros [=]).
  by rewrite renderResultModal_closed.
Qed.

(** The tab index outlives the dialog.  After the results of one row have
    been viewed on tab [i] and the dialog closed, opening the dialog on a
    row with at most [i] results makes [ExecutionResultModal] throw: the
    effect that would reset the index runs only after a render that
    succeeds. *)
Theorem stale_tab_index_throws (rsA rsB : list ExecutionResult) (i : nat) :
  rsB <> [] ->
  (length rsB <= i)%nat ->
  (i < length rsA)%nat ->
  modalRun [ViewResultClicked rsA; TabClicked i; ResultModalClosed]
    initialResultModal
  = Rendered {| isResultModalOpen := false; selectedResults := Some rsA;
                activeTabIndex := i |}
  /\ modalRun [ViewResultClicked rsA; TabClicked i; ResultModalClosed;
               ViewResultClicked rsB] initialResultModal
     = Throws.
Proof.
  intros HB Hle Hlt.
  assert (HA : rsA <> []) by (destruct rsA; simpl in *; [lia|done]).
  assert (H0 : (0 < length rsA)%nat) by lia.
  cbn [modalRun].
  rewrite (modalStep_view initialResultModal rsA eq_refl HA).
  cbn [activeTabIndex initialResultModal]. rewrite decide_True by done.
  rewrite (modalStep_tab rsA i 0 H0 Hlt).
  rewrite (modalStep_close rsA i Hlt).
  split; [done|].
  rewrite (modalStep_view
             {| isResultModalOpen := false; selectedResults := Some rsA;
                activeTabIndex := i |} rsB eq_refl HB).
  cbn [activeTabIndex]. rewrite decide_False by lia. done.
Qed.

Lemma stale_tab_index_throws_witness :
  let rsA :=
    [mutation_result 1; error_result (js "syntax"); mutation_result 0] in
  let rsB := [error_result (js "denied")] in
  modalRun [ViewResultClicked rsA; TabClicked 2; ResultModalClosed]
    initialResultModal
  = Rendered {| isResultModalOpen := false; selectedResults := Some rsA;
                activeTabIndex := 2 |}
  /\ modalRun [ViewResultClicked rsA; TabClicked 2; ResultModalClosed;
               ViewResultClicked rsB] initialResultModal
     = Throws.
Proof.
  intros rsA rsB. apply (stale_tab_index_throws rsA rsB 2).
  - discriminate.
  - simpl. lia.
  - simpl. lia.
Defined.

(** ** The database loader *)

Lemma js_inj (s s' : string) : js s = js s' -> s = s'.
Proof.
  revert s'. induction s as [|a s IH]; intros [|a' s']; simpl; try done.
  intros [= Ha Hs]. f_equal; [|by apply IH].
  rewrite <- (ascii_N_embedding a), <- (ascii_N_embedding a'). by rewrite Ha.
Qed.

Lemma to_uint_nonnil (n : nat) : Nat.to_uint n <> Decimal.Nil.
Proof.
  rewrite <- (DecimalNat.Unsigned.of_to n) at 1.
  rewrite DecimalNat.Unsigned.to_of. apply DecimalFacts.unorm_nonnil.
Qed.

(** Different indices print differently. *)
Lemma decimal_inj (i j : nat) : decimal i = decimal j -> i = j.
Proof.
  unfold decimal. intros H. apply js_inj in H.
  apply (f_equal NilZero.uint_of_string) in H.
  rewrite !NilZero.usu in H by apply to_uint_nonnil.
  injection H as H. by apply DecimalNat.Unsigned.to_uint_inj.
Qed.

Lemma formatDbs_lookup (dbInfos : list DatabaseInfo) (i : nat) :
  formatDbs dbInfos !! i
  = (fun db => {| db_id := js "db-" ++ decimal i; db_name := info_name db;
                  checked := true; db_status := info_status db |})
      <$> dbInfos !! i.
Proof. unfold formatDbs. apply list_lookup_imap. Qed.

Lemma formatDbs_names (dbInfos : list DatabaseInfo) :
  db_name <$> formatDbs dbInfos = info_name <$> dbInfos.
Proof.
  apply list_eq. intros i.
  rewrite !list_lookup_fmap, formatDbs_lookup. by destruct (dbInfos !! i).
Qed.

Lemma formatDbs_checked (dbInfos : list DatabaseInfo) :
  Forall (fun db => checked db = true) (formatDbs dbInfos).
Proof.
  apply Forall_forall. intros db Hdb.
  apply list_elem_of_lookup in Hdb as [i Hi].
  rewrite formatDbs_lookup in Hi.
  destruct (dbInfos !! i); [|done]. by injection Hi as <-.
Qed.

Lemma formatDbs_ids_NoDup (dbInfos : list DatabaseInfo) :
  NoDup (db_id <$> formatDbs dbInfos).
Proof.
  apply NoDup_alt. intros i j x Hi Hj.
  rewrite list_lookup_fmap, formatDbs_lookup in Hi, Hj.
  destruct (dbInfos !! i); [|done]. destruct (dbInfos !! j); [|done].
  simpl in *. injection Hi as <-. injection Hj as Hj.
  by apply decimal_inj.
Qed.

(** The list an answer of the back end leaves: as many databases as the
    answer has entries, under the answer's names, each with an id of its
    own and every one checked, the disabled ones (negative status)
    included; the targets of an execution are then all of them. *)
Theorem loaded_databases_all_checked
    (sortByName : list Database -> list Database)
    (dbInfos : list DatabaseInfo)
    (s : AppState DatabaseStatus * LoaderFlags) :
  (forall l, sortByName l ≡ₚ l) ->
  let dbs :=
    databases (onDatabasesLoaded (C:=loader_command) sortByName dbInfos s).1.1
  in
  length dbs = length dbInfos
  /\ NoDup (db_id <$> dbs)
  /\ Forall (fun db => checked db = true) dbs
  /\ selectedDbs dbs = db_name <$> dbs
  /\ db_name <$> dbs ≡ₚ info_name <$> dbInfos
  /\ db_status <$> dbs ≡ₚ info_status <$> dbInfos.
Proof.
  intros Hperm dbs. subst dbs. simpl.
  assert (Hc : Forall (fun db => checked db = true)
                 (sortByName (formatDbs dbInfos))).
  { rewrite (Hperm (formatDbs dbInfos)). apply formatDbs_checked. }
  split; [|split; [|split; [|split; [|split]]]].
  - rewrite (Hperm (formatDbs dbInfos)). unfold formatDbs.
    apply length_imap.
  - rewrite (Hperm (formatDbs dbInfos)). apply formatDbs_ids_NoDup.
  - done.
  - by apply selectedDbs_all_checked.
  - by rewrite (Hperm (formatDbs dbInfos)), formatDbs_names.
  - rewrite (Hperm (formatDbs dbInfos)).
    assert (H : db_status <$> formatDbs dbInfos = info_status <$> dbInfos);
      [|by rewrite H].
    apply list_eq. intros i.
    rewrite !list_lookup_fmap, formatDbs_lookup. by destruct (dbInfos !! i).
Qed.

Lemma loaded_databases_all_checked_witness :
  let dbInfos :=
    [ {| info_name := js "sales"; info_status := 0%Z |};
      {| info_name := js "archive"; info_status := (-1)%Z |} ] in
  let dbs :=
    databases
      (onDatabasesLoaded (C:=loader_command) (@rev Database) dbInfos
         (app Sample.queryScreen,
          {| isLoadingDatabases := true; dbError := None |})).1.1 in
  length dbs = length dbInfos
  /\ NoDup (db_id <$> dbs)
  /\ Forall (fun db => checked db = true) dbs
  /\ selectedDbs dbs = db_name <$> dbs
  /\ db_name <$> dbs ≡ₚ info_name <$> dbInfos
  /\ db_status <$> dbs ≡ₚ info_status <$> dbInfos.
Proof.
  intros dbInfos.
  apply (loaded_databases_all_checked (@rev Database) dbInfos
           (app Sample.queryScreen,
            {| isLoadingDatabases := true; dbError := None |})).
  intros l. symmetry. apply Permutation_rev.
Defined.

Lemma return_handler_fields (errorsOnly : bool)
    (st : AppState DatabaseStatus) :
  let st1 :=
    (if errorsOnly then handleReturnSelectErrors st
     else handleReturnSelectPrevious (C:=command) st).1 in
  screen st1 = query_screen
  /\ connections st1 = connections st
  /\ selectedConnectionId st1 = selectedConnectionId st.
Proof.
  destruct errorsOnly; simpl; [|done].
  pose proof (handleReturnSelectErrors_screen st). tauto.
Qed.

(** In the later snapshot the way back from the execution screen changes
    [screen], a dependency of the loader, so the loader asks for the
    databases again; when the answer arrives every database of the answer
    is checked, whatever "Somente Erros" or "Seleção Anterior" had left. *)
Theorem reload_after_return_checks_everything
    (sortByName : list Database -> list Database)
    (dbInfos : list DatabaseInfo) (errorsOnly : bool)
    (st : AppState DatabaseStatus) (fl : LoaderFlags) (c : Connection) :
  (forall l, sortByName l ≡ₚ l) ->
  screen st = execution_screen ->
  selectedConnection st = Some c ->
  let st1 :=
    (if errorsOnly then handleReturnSelectErrors st
     else handleReturnSelectPrevious (C:=command) st).1 in
  loaderEffect (loaderDeps st) (st1, fl)
  = ((st1, {| isLoadingDatabases := true; dbError := None |}),
     [Invoke (get_databases c)])
  /\ checkedNames
       (databases
          (onDatabasesLoaded (C:=loader_command) sortByName dbInfos
             (st1, {| isLoadingDatabases := true; dbError := None |})).1.1)
     = list_to_set (info_name <$> dbInfos).
Proof.
  intros Hperm Hs Hc st1.
  destruct (return_handler_fields errorsOnly st) as (Hs1 & Hc1 & Hi1).
  fold st1 in Hs1, Hc1, Hi1.
  assert (Hsel : selectedConnection st1 = Some c).
  { rewrite <- Hc. by apply selectedConnection_ext. }
  split.
  - unfold loaderEffect, loaderDeps. cbn [fst].
    rewrite decide_False by (rewrite Hs, Hs1; intros [=]).
    unfold loadDatabases. cbn [fst]. by rewrite Hs1, Hsel.
  - unfold checkedNames. simpl.
    rewrite selectedDbs_all_checked
      by (rewrite (Hperm (formatDbs dbInfos)); apply formatDbs_checked).
    by rewrite (Hperm (formatDbs dbInfos)), formatDbs_names.
Qed.

Lemma reload_after_return_checks_everything_witness :
  let st :=
    app (run [SaveOptionSelected none false; StatusUpdate Sample.db2_ok;
              StatusUpdate Sample.db1_failed; BackClicked]
           Sample.queryScreen).1 in
  let fl := {| isLoadingDatabases := false; dbError := None |} in
  let dbInfos :=
    [ {| info_name := js "db1"; info_status := 0%Z |};
      {| info_name := js "db2"; info_status := 0%Z |};
      {| info_name := js "db3"; info_status := 0%Z |} ] in
  let st1 := (handleReturnSelectErrors st).1 in
  loaderEffect (loaderDeps st) (st1, fl)
  = ((st1, {| isLoadingDatabases := true; dbError := None |}),
     [Invoke (get_databases Sample.local)])
  /\ checkedNames
       (databases
          (onDatabasesLoaded (C:=loader_command) (fun l => l) dbInfos
             (st1, {| isLoadingDatabases := true; dbError := None |})).1.1)
     = list_to_set (info_name <$> dbInfos).
Proof.
  intros st fl dbInfos.
  apply (reload_after_return_checks_everything (fun l => l) dbInfos true
           st fl Sample.local).
  - done.
  - reflexivity.
  - reflexivity.
Defined.

(** In the earlier snapshot the loader asks only when the list of
    databases is empty, so the way back from the execution screen, which
    keeps the list, causes no reload and the selection stays. *)
Theorem V1_no_reload_after_return (errorsOnly : bool)
    (st : AppState V1.DatabaseStatus) (fl : LoaderFlags)
    (prev : Screen * option Connection * nat) :
  databases st <> [] ->
  let st1 :=
    (if errorsOnly then V1.handleReturnSelectErrors st
     else handleReturnSelectPrevious (C:=V1.command) st).1 in
  length (databases st1) = length (databases st)
  /\ V1Loader.loaderEffect prev (st1, fl) = ((st1, fl), []).
Proof.
  intros Hne st1.
  assert (Hlen : length (databases st1) = length (databases st)).
  { subst st1. destruct errorsOnly; [|done].
    unfold V1.handleReturnSelectErrors, andThen.
    destruct (lastExecutionResults st); simpl; [|done].
    by rewrite length_fmap. }
  split; [done|].
  unfold V1Loader.loaderEffect. case_decide; [done|].
  unfold V1Loader.loadDatabases. cbn [fst].
  destruct (databases st1) eqn:E.
  - destruct (databases st); [done|]. simpl in Hlen. lia.
  - by destruct (screen st1), (selectedConnection st1).
Qed.

Lemma V1_no_reload_after_return_witness :
  let st : AppState V1.DatabaseStatus :=
    {| screen := execution_screen; connections := [Sample.local];
       databases := [Sample.db "db1" true; Sample.db "db2" false];
       selectedConnectionId := Some (conn_id Sample.local);
       executionData := Some (js "SELECT 1", [js "db1"]);
       isReturnModalOpen := true;
       lastExecutionResults :=
         Some [ {| V1.name := js "db1"; V1.status := error;
                   V1.log := Some (js "timeout"); V1.result := None |} ];
       query := []; notification := None |} in
  let fl := {| isLoadingDatabases := false; dbError := None |} in
  let st1 := (V1.handleReturnSelectErrors st).1 in
  length (databases st1) = length (databases st)
  /\ V1Loader.loaderEffect (V1Loader.loaderDeps st) (st1, fl)
     = ((st1, fl), []).
Proof.
  intros st fl.
  apply (V1_no_reload_after_return true st fl (V1Loader.loaderDeps st)).
  discriminate.
Defined.

(** "Voltar" on the query screen empties the list of databases, so the
    next "Conectar" finds the loader of either snapshot ready to ask the
    back end again. *)
Theorem back_to_connections_forces_reload
    (st : AppState DatabaseStatus) (d : Dialogs) (fl : LoaderFlags)
    (c : Connection) :
  selectedConnection st = Some c ->
  truthyId (selectedConnectionId st) = true ->
  let st1 := (handleBackToConnections (C:=command) st).1 in
  let st2 := (handleConnect (C:=command) (st1, d)).1.1 in
  databases st2 = []
  /\ screen st2 = query_screen
  /\ loaderEffect (loaderDeps st1) (st2, fl)
     = ((st2, {| isLoadingDatabases := true; dbError := None |}),
        [Invoke (get_databases c)])
  /\ V1Loader.loaderEffect (V1Loader.loaderDeps st1) (st2, fl)
     = ((st2, {| isLoadingDatabases := true; dbError := None |}),
        [Invoke (get_databases c)]).
Proof.
  intros Hc Hid st1 st2.
  assert (H2 : st2 = (setScreen (C:=command) query_screen st1).1).
  { subst st2. unfold handleConnect. cbn [fst]. subst st1. simpl.
    by rewrite Hid. }
  assert (Hsel : selectedConnection st2 = Some c).
  { rewrite <- Hc, H2. by apply selectedConnection_ext. }
  assert (Hdb : databases st2 = []) by by rewrite H2.
  assert (Hs : screen st2 = query_screen) by by rewrite H2.
  split; [done|]. split; [done|]. split.
  - unfold loaderEffect, loaderDeps. cbn [fst].
    rewrite decide_False by (rewrite Hs; subst st1; simpl; intros [=]).
    unfold loadDatabases. cbn [fst]. by rewrite Hs, Hsel.
  - unfold V1Loader.loaderEffect, V1Loader.loaderDeps. cbn [fst].
    rewrite decide_False by (rewrite Hs; subst st1; simpl; intros [=]).
    unfold V1Loader.loadDatabases. cbn [fst]. by rewrite Hs, Hsel, Hdb.
Qed.

Lemma back_to_connections_forces_reload_witness :
  let st := app Sample.queryScreen in
  let d := {| isModalOpen := false; modalMode := new_mode;
              isConfirmDeleteOpen := false |} in
  let fl := {| isLoadingDatabases := false; dbError := None |} in
  let st1 := (handleBackToConnections (C:=command) st).1 in
  let st2 := (handleConnect (C:=command) (st1, d)).1.1 in
  databases st2 = []
  /\ screen st2 = query_screen
  /\ loaderEffect (loaderDeps st1) (st2, fl)
     = ((st2, {| isLoadingDatabases := true; dbError := None |}),
        [Invoke (get_databases Sample.local)])
  /\ V1Loader.loaderEffect (V1Loader.loaderDeps st1) (st2, fl)
     = ((st2, {| isLoadingDatabases := true; dbError := None |}),
        [Invoke (get_databases Sample.local)]).
Proof.
  intros st d fl.
  apply (back_to_connections_forces_reload st d fl Sample.local);
    reflexivity.
Defined.

(** ** The connections screen *)

Lemma selectedConnection_None {R} (st : AppState R) :
  selectedConnectionId st = None -> selectedConnection st = None.
Proof. unfold selectedConnection. by intros ->. Qed.


(** Confirming the deletion removes every connection that has the
    selected id and keeps the others in their order; nothing is selected
    afterwards and the dialog is closed. *)
Theorem confirm_delete_removes_selected
    (s : AppState DatabaseStatus * Dialogs) (i : jsstring) :
  selectedConnectionId s.1 = Some i ->
  i <> [] ->
  let s' := (handleConfirmDelete (C:=command) s).1 in
  connections s'.1 = filter (fun c => conn_id c <> i) (connections s.1)
  /\ (i ∉ conn_id <$> connections s'.1)
  /\ selectedConnectionId s'.1 = None
  /\ selectedConnection s'.1 = None
  /\ isConfirmDeleteOpen s'.2 = false
  /\ notification s'.1 = Some connectionDeletedMessage.
Proof.
  intros Hi Hne s'. subst s'. unfold handleConfirmDelete. rewrite Hi.
  destruct i as [|c i]; [done|]. simpl.
  split; [done|]. split; [|done].
  intros H. apply list_elem_of_fmap in H as (x & Hx & Hin).
  apply list_elem_of_filter in Hin as [Hf _]. by apply Hf.
Qed.

Lemma confirm_delete_removes_selected_witness :
  let other :=
    {| conn_id := js "1700000000001"; conn_name := js "staging";
       host := js "10.0.0.2"; port := js "3306"; user := js "root";
       pass := []; savePass := false |} in
  let s : AppState DatabaseStatus * Dialogs :=
    ({| screen := connections_screen;
        connections := [Sample.local; other];
        databases := [];
        selectedConnectionId := Some (conn_id Sample.local);
        executionData := None; isReturnModalOpen := false;
        lastExecutionResults := None; query := [];
        notification := None |},
     {| isModalOpen := false; modalMode := new_mode;
        isConfirmDeleteOpen := true |}) in
  let s' := (handleConfirmDelete (C:=command) s).1 in
  connections s'.1
  = filter (fun c => conn_id c <> conn_id Sample.local) (connections s.1)
  /\ (conn_id Sample.local ∉ conn_id <$> connections s'.1)
  /\ selectedConnectionId s'.1 = None
  /\ selectedConnection s'.1 = None
  /\ isConfirmDeleteOpen s'.2 = false
  /\ notification s'.1 = Some connectionDeletedMessage.
Proof.
  intros other s.
  apply (confirm_delete_removes_selected s (conn_id Sample.local)).
  - reflexivity.
  - discriminate.
Defined.

Lemma edit_map_ids (i : jsstring) (d : ConnectionFormData)
    (l : list Connection) :
  conn_id <$> ((fun conn => if decide (conn_id conn = i)
                            then withFormData (conn_id conn) d else conn)
               <$> l)
  = conn_id <$> l.
Proof.
  induction l as [|x l IH]; csimpl; [done|]. rewrite IH.
  by case_decide.
Qed.

(** Saving the edit dialog changes no id and so neither the number nor
    the order of the connections; the connections with the selected id
    take every field but the id from the form; the dialog is closed and
    nothing is selected any more. *)
Theorem edit_keeps_ids (s : AppState DatabaseStatus * Dialogs)
    (now i : jsstring) (d : ConnectionFormData) :
  modalMode s.2 = edit_mode ->
  selectedConnectionId s.1 = Some i ->
  i <> [] ->
  let s' := (handleSaveConnection (C:=command) now d s).1 in
  conn_id <$> connections s'.1 = conn_id <$> connections s.1
  /\ (forall c, c ∈ connections s'.1 -> conn_id c = i ->
                c = withFormData i d)
  /\ (forall c, c ∈ connections s'.1 -> conn_id c <> i ->
                c ∈ connections s.1)
  /\ selectedConnectionId s'.1 = None
  /\ isModalOpen s'.2 = false.
Proof.
  intros Hm Hi Hne s'. subst s'. unfold handleSaveConnection, andThen.
  rewrite Hm, Hi. destruct i as [|c0 i]; [done|].
  unfold handleCloseModal, andThen. simpl. rewrite Hm. simpl.
  split; [apply edit_map_ids|]. split; [|split; [|done]].
  - intros c Hc Hid. apply list_elem_of_fmap in Hc as (x & -> & _).
    case_decide as Hx; [by rewrite Hx|]. done.
  - intros c Hc Hid. apply list_elem_of_fmap in Hc as (x & -> & Hx).
    case_decide as Hd; [|done]. by destruct Hid.
Qed.

Lemma edit_keeps_ids_witness :
  let d :=
    {| fd_name := js "local (new)"; fd_host := js "localhost";
       fd_port := js "3307"; fd_user := js "admin"; fd_pass := [];
       fd_savePass := true |} in
  let s : AppState DatabaseStatus * Dialogs :=
    ({| screen := connections_screen; connections := [Sample.local];
        databases := [];
        selectedConnectionId := Some (conn_id Sample.local);
        executionData := None; isReturnModalOpen := false;
        lastExecutionResults := None; query := [];
        notification := None |},
     {| isModalOpen := true; modalMode := edit_mode;
        isConfirmDeleteOpen := false |}) in
  let s' :=
    (handleSaveConnection (C:=command) (js "1700000000009") d s).1 in
  conn_id <$> connections s'.1 = conn_id <$> connections s.1
  /\ (forall c, c ∈ connections s'.1 -> conn_id c = conn_id Sample.local ->
                c = withFormData (conn_id Sample.local) d)
  /\ (forall c, c ∈ connections s'.1 ->
                conn_id c <> conn_id Sample.local ->
                c ∈ connections s.1)
  /\ selectedConnectionId s'.1 = None
  /\ isModalOpen s'.2 = false.
Proof.
  intros d s.
  apply (edit_keeps_ids s (js "1700000000009") (conn_id Sample.local) d).
  - reflexivity.
  - reflexivity.
  - discriminate.
Defined.

Lemma handleCloseModal_fields (s : AppState DatabaseStatus * Dialogs) :
  connections (handleCloseModal (C:=command) s).1.1 = connections s.1
  /\ screen (handleCloseModal (C:=command) s).1.1 = screen s.1
  /\ (selectedConnectionId (handleCloseModal (C:=command) s).1.1 = None
      \/ selectedConnectionId (handleCloseModal (C:=command) s).1.1
         = selectedConnectionId s.1).
Proof.
  unfold handleCloseModal, andThen. simpl.
  destruct (bool_decide (modalMode s.2 = edit_mode)); simpl; auto.
Qed.

(** What one event of the connections screen does to the list of
    connections and to the selection. *)
Lemma handleConnEvent_cases (ev : conn_event)
    (s : AppState DatabaseStatus * Dialogs) :
  let s' := (handleConnEvent (C:=command) ev s).1 in
  (* the list: unchanged, grown at the end, edited in place, or filtered *)
  (connections s'.1 = connections s.1
   \/ (exists c, connections s'.1 = connections s.1 ++ [c]
                 /\ forallb isWhiteSpace (conn_name c) = false)
   \/ (exists i d,
         connections s'.1
         = (fun conn => if decide (conn_id conn = i)
                        then withFormData (conn_id conn) d else conn)
           <$> connections s.1
         /\ forallb isWhiteSpace (fd_name d) = false
         /\ selectedConnectionId s'.1 = None)
   \/ (exists i,
         connections s'.1 = filter (fun c => conn_id c <> i) (connections s.1)
         /\ selectedConnectionId s'.1 = None))
  (* the selection: cleared, unchanged, or an id of the list *)
  /\ (selectedConnectionId s'.1 = None
      \/ selectedConnectionId s'.1 = selectedConnectionId s.1
      \/ exists i, selectedConnectionId s'.1 = Some i
                   /\ i ∈ conn_id <$> connections s.1
                   /\ connections s'.1 = connections s.1).
Proof.
  intros s'. subst s'. destruct s as [st d].
  destruct ev; unfold handleConnEvent; cbn [fst snd].
  - destruct (onConnectionsScreen (st, d)
              && bool_decide (connectionId ∈ conn_id <$> connections st))
      eqn:E; [|by auto].
    apply andb_true_iff in E as [_ E]. apply bool_decide_eq_true in E.
    unfold handleConnectionSelect, inApp. simpl. split; [by left|].
    case_decide; [by left|]. right. right. by exists connectionId.
  - destruct (onConnectionsScreen (st, d)
              && truthyId (selectedConnectionId st)); [|by auto].
    unfold handleConnect. cbn [fst].
    destruct (truthyId (selectedConnectionId st)); simpl; auto.
  - destruct (onConnectionsScreen (st, d)); [|by auto].
    unfold handleOpenModal. simpl. auto.
  - destruct (onConnectionsScreen (st, d)
              && truthyId (selectedConnectionId st)); [|by auto].
    unfold handleOpenModal. cbn [fst].
    destruct (bool_decide (edit_mode = edit_mode)
              && negb (truthyId (selectedConnectionId st))); simpl; auto.
  - destruct (onConnectionsScreen (st, d)
              && truthyId (selectedConnectionId st)); [|by auto].
    unfold handleDeleteConnection. cbn [fst].
    destruct (truthyId (selectedConnectionId st)); simpl; auto.
  - destruct (isModalOpen d); [|by auto].
    unfold handleSubmit.
    destruct (truthy (trim (fd_name formData))) eqn:Ht; [|by auto].
    assert (Hname : forallb isWhiteSpace (fd_name formData) = false).
    { destruct (forallb isWhiteSpace (fd_name formData)) eqn:E; [|done].
      apply truthy_trim_false in E. rewrite Ht in E. done. }
    unfold handleSaveConnection, andThen. cbn [fst snd].
    destruct (modalMode d) eqn:Hm.
    + unfold handleCloseModal, andThen. simpl. rewrite Hm. simpl.
      split; [|by auto]. right. left. by eexists.
    + destruct (selectedConnectionId st) as [[|c0 i]|] eqn:Hi.
      * unfold handleCloseModal, andThen. simpl. rewrite Hm. simpl. auto.
      * unfold handleCloseModal, andThen. simpl. rewrite Hm. simpl.
        split; [|by auto]. right. right. left.
        by exists (c0 :: i), formData.
      * unfold handleCloseModal, andThen. simpl. rewrite Hm. simpl. auto.
  - destruct (isModalOpen d); [|by auto].
    destruct (handleCloseModal_fields (st, d)) as (Hc & _ & Hsel).
    split; [by left|]. destruct Hsel; auto.
  - destruct (isConfirmDeleteOpen d); [|by auto].
    unfold handleConfirmDelete. cbn [fst].
    destruct (selectedConnectionId st) as [[|c0 i]|] eqn:Hi;
      [by auto| |by auto].
    simpl. split; [|by auto]. right. right. right. by exists (c0 :: i).
  - destruct (isConfirmDeleteOpen d); [|by auto]. simpl. auto.
Qed.


Lemma handleConnEvent_namesNotBlank (ev : conn_event)
    (s : AppState DatabaseStatus * Dialogs) :
  namesNotBlank s.1 ->
  namesNotBlank (handleConnEvent (C:=command) ev s).1.1.
Proof.
  intros Hn. destruct (handleConnEvent_cases ev s) as [Hc _].
  unfold namesNotBlank in *.
  destruct Hc
    as [->|[(c & -> & Hname)|[(j & d & -> & Hname & _)|(j & -> & _)]]].
  - done.
  - apply Forall_app. split; [done|]. by constructor.
  - apply Forall_fmap. eapply Forall_impl; [exact Hn|].
    intros x Hx. simpl. by case_decide.
  - apply Forall_forall. intros x Hx.
    apply list_elem_of_filter in Hx as [_ Hx].
    rewrite Forall_forall in Hn. by apply Hn.
Qed.



(** [ConnectionModal] saves nothing under a name that [trim] empties:
    submitting such a form changes nothing, shows no banner and leaves
    the dialog open; and no event of the connections screen or of its
    dialogs, taken alone, puts a blank name into a list that had none. *)
Theorem blank_connection_name_not_saved (ev : conn_event)
    (now : jsstring) (d : ConnectionFormData)
    (s : AppState DatabaseStatus * Dialogs) :
  forallb isWhiteSpace (fd_name d) = true ->
  namesNotBlank s.1 ->
  handleSubmit (C:=command) now d s = (s, [])
  /\ namesNotBlank (handleConnEvent (C:=command) ev s).1.1.
Proof.
  intros Hb Hn. split; [|by apply handleConnEvent_namesNotBlank].
  unfold handleSubmit. apply truthy_trim_false in Hb.
  by destruct (truthy (trim (fd_name d))).
Qed.

Lemma blank_connection_name_not_saved_witness :
  let blank :=
    {| fd_name := [32; 9; 160]; fd_host := js "10.0.0.2";
       fd_port := js "3306"; fd_user := js "root"; fd_pass := [];
       fd_savePass := false |} in
  let s : AppState DatabaseStatus * Dialogs :=
    ({| screen := connections_screen; connections := [Sample.local];
        databases := []; selectedConnectionId := None;
        executionData := None; isReturnModalOpen := false;
        lastExecutionResults := None; query := [];
        notification := None |},
     {| isModalOpen := true; modalMode := new_mode;
        isConfirmDeleteOpen := false |}) in
  handleSubmit (C:=command) (js "1700000000001") blank s = (s, [])
  /\ namesNotBlank
       (handleConnEvent (C:=command)
          (FormSubmitted (js "1700000000001") blank) s).1.1.
Proof.
  intros blank s.
  apply (blank_connection_name_not_saved
           (FormSubmitted (js "1700000000001") blank)
           (js "1700000000001") blank s).
  - reflexivity.
  - repeat constructor.
Defined.

(** ** After the way back *)

Lemma loader_fires_after_return (errorsOnly : bool)
    (st : AppState DatabaseStatus) (fl : LoaderFlags) (c : Connection) :
  screen st = execution_screen ->
  selectedConnection st = Some c ->
  loaderEffect (loaderDeps st)
    ((if errorsOnly then handleReturnSelectErrors st
      else handleReturnSelectPrevious (C:=command) st).1, fl)
  = (((if errorsOnly then handleReturnSelectErrors st
       else handleReturnSelectPrevious (C:=command) st).1,
      {| isLoadingDatabases := true; dbError := None |}),
     [Invoke (get_databases c)]).
Proof.
  intros Hs Hc.
  destruct (return_handler_fields errorsOnly st) as (Hs1 & Hc1 & Hi1).
  cbv zeta in Hs1, Hc1, Hi1.
  unfold loaderEffect, loaderDeps. cbn [fst].
  rewrite decide_False by (rewrite Hs, Hs1; intros [=]).
  unfold loadDatabases. cbn [fst]. rewrite Hs1.
  rewrite (selectedConnection_ext _ st Hc1 Hi1). by rewrite Hc.
Qed.

Lemma return_handler_query (errorsOnly : bool)
    (st : AppState DatabaseStatus) :
  query (if errorsOnly then handleReturnSelectErrors st
         else handleReturnSelectPrevious (C:=command) st).1 = query st.
Proof.
  destruct errorsOnly; [|done].
  pose proof (handleReturnSelectErrors_screen st). tauto.
Qed.

(** The later snapshot, from the return dialog to the next execution.
    The way back starts a reload; until its answer arrives the query
    screen shows no execute button; with the answer the buttons are back
    and every database of the answer is checked, so the execution asked
    for then is sent for all of them, whichever button of the return
    dialog was pressed and whatever had failed. *)
Theorem rerun_after_reload_targets_everything
    (sortByName : list Database -> list Database)
    (dbInfos : list DatabaseInfo) (errorsOnly : bool)
    (st : AppState DatabaseStatus) (fl : LoaderFlags) (c : Connection)
    (so : SaveOption) (f : bool) :
  (forall l, sortByName l ≡ₚ l) ->
  screen st = execution_screen ->
  selectedConnection st = Some c ->
  dbInfos <> [] ->
  forallb isWhiteSpace (query st) = false ->
  let st1 :=
    (if errorsOnly then handleReturnSelectErrors st
     else handleReturnSelectPrevious (C:=command) st).1 in
  let loading := (loaderEffect (loaderDeps st) (st1, fl)).1 in
  let loaded :=
    (onDatabasesLoaded (C:=loader_command) sortByName dbInfos loading).1 in
  executeButtonsShown loading.2 = false
  /\ executeButtonsShown loaded.2 = true
  /\ (handleSaveOptionSelect so f loaded.1).2
     = [Invoke (add_query_to_history (query st) (conn_name c)
                  (js "executed"));
        Invoke (execute_query_on_databases c
                  (db_name <$> sortByName (formatDbs dbInfos))
                  (query st) so f)]
  /\ db_name <$> sortByName (formatDbs dbInfos) ≡ₚ info_name <$> dbInfos.
Proof.
  intros Hperm Hs Hc Hne Hq st1 loading loaded.
  subst loaded loading st1.
  rewrite (loader_fires_after_return errorsOnly st fl c Hs Hc).
  set (st1 :=
         (if errorsOnly then handleReturnSelectErrors st
          else handleReturnSelectPrevious (C:=command) st).1).
  cbn [fst snd]. split; [done|]. split; [done|].
  split; [|by rewrite (Hperm (formatDbs dbInfos)), formatDbs_names].
  destruct (return_handler_fields errorsOnly st) as (Hs1 & Hc1 & Hi1).
  fold st1 in Hs1, Hc1, Hi1.
  pose proof (return_handler_query errorsOnly st) as Hq1. fold st1 in Hq1.
  unfold handleSaveOptionSelect, onDatabasesLoaded. cbn [fst snd].
  set (st2 := (setDatabases (C:=loader_command)
                 (fun _ => sortByName (formatDbs dbInfos)) st1).1).
  assert (Hsel : selectedConnection st2 = Some c).
  { rewrite <- Hc. apply selectedConnection_ext; [exact Hc1|exact Hi1]. }
  assert (Hdbs : selectedDbs (databases st2)
                 = db_name <$> sortByName (formatDbs dbInfos)).
  { apply selectedDbs_all_checked.
    change (databases st2) with (sortByName (formatDbs dbInfos)).
    rewrite (Hperm (formatDbs dbInfos)). apply formatDbs_checked. }
  assert (HT : db_name <$> sortByName (formatDbs dbInfos) <> []).
  { intros H. apply (f_equal length) in H.
    rewrite length_fmap, (Hperm (formatDbs dbInfos)) in H.
    unfold formatDbs in H. rewrite length_imap in H.
    by destruct dbInfos. }
  assert (Hq2 : query st2 = query st) by exact Hq1.
  rewrite Hdbs, Hq2.
  by rewrite (handleExecute_accepts st2 c (query st) _ so f Hsel HT Hq).
Qed.

Lemma rerun_after_reload_targets_everything_witness :
  let st :=
    app (run [SaveOptionSelected none false; StatusUpdate Sample.db2_ok;
              StatusUpdate Sample.db1_failed; BackClicked]
           Sample.queryScreen).1 in
  let fl := {| isLoadingDatabases := false; dbError := None |} in
  let dbInfos :=
    [ {| info_name := js "db1"; info_status := 0%Z |};
      {| info_name := js "db2"; info_status := 0%Z |};
      {| info_name := js "db3"; info_status := 0%Z |} ] in
  let st1 := (handleReturnSelectErrors st).1 in
  let loading := (loaderEffect (loaderDeps st) (st1, fl)).1 in
  let loaded :=
    (onDatabasesLoaded (C:=loader_command) (fun l => l) dbInfos
       loading).1 in
  executeButtonsShown loading.2 = false
  /\ executeButtonsShown loaded.2 = true
  /\ (handleSaveOptionSelect single true loaded.1).2
     = [Invoke (add_query_to_history (query st) (conn_name Sample.local)
                  (js "executed"));
        Invoke (execute_query_on_databases Sample.local
                  (db_name <$> formatDbs dbInfos) (query st) single true)]
  /\ db_name <$> formatDbs dbInfos ≡ₚ info_name <$> dbInfos.
Proof.
  intros st fl dbInfos.
  apply (rerun_after_reload_targets_everything (fun l => l) dbInfos true
           st fl Sample.local single true).
  - done.
  - reflexivity.
  - reflexivity.
  - discriminate.
  - reflexivity.
Defined.

Lemma V1_selectedDbs_after_errors_only (st : AppState V1.DatabaseStatus)
    (rs : list V1.DatabaseStatus) :
  lastExecutionResults st = Some rs ->
  databases (V1.handleReturnSelectErrors st).1
  = checkIfError (V1.errorDbNames rs) <$> databases st
  /\ screen (V1.handleReturnSelectErrors st).1 = query_screen
  /\ notification (V1.handleReturnSelectErrors st).1 = notification st
  /\ selectedConnection (V1.handleReturnSelectErrors st).1
     = selectedConnection st.
Proof.
  intros Hl. unfold V1.handleReturnSelectErrors, andThen. by rewrite Hl.
Qed.

(** The earlier snapshot, from the return dialog to the next execution.
    "Somente Erros" causes no reload, so the execution asked for next is
    for the databases of the list whose name is the name of a failed
    entry, in the order of the list; when there is none it is refused
    with the banner for an empty selection and nothing is sent. *)
Theorem V1_rerun_after_errors_only (st : AppState V1.DatabaseStatus)
    (rs : list V1.DatabaseStatus) (q : jsstring) (so : SaveOption)
    (fl : LoaderFlags) (prev : Screen * option Connection * nat) :
  lastExecutionResults st = Some rs ->
  databases st <> [] ->
  forallb isWhiteSpace q = false ->
  let st1 := (V1.handleReturnSelectErrors st).1 in
  let T :=
    filter (fun n => n ∈ V1.errorDbNames rs) (db_name <$> databases st) in
  V1Loader.loaderEffect prev (st1, fl) = ((st1, fl), [])
  /\ selectedDbs (databases st1) = T
  /\ (V1.handleExecute q (selectedDbs (databases st1)) so st1).2
     = match T with
       | [] => [SetTimeout 3000]
       | _ :: _ =>
           [Invoke (V1.execute_query_on_databases (selectedConnection st)
                      T q so)]
       end
  /\ notification (V1.handleExecute q (selectedDbs (databases st1)) so st1).1
     = match T with
       | [] => Some V1.noDatabaseMessage
       | _ :: _ => notification st
       end.
Proof.
  intros Hl Hne Hq st1 T.
  destruct (V1_selectedDbs_after_errors_only st rs Hl)
    as (Hdb & Hs & Hn & Hc).
  fold st1 in Hdb, Hs, Hn, Hc.
  assert (Hsel : selectedDbs (databases st1) = T).
  { rewrite Hdb. apply selectedDbs_checkIfError. }
  split.
  { unfold V1Loader.loaderEffect. case_decide; [done|].
    unfold V1Loader.loadDatabases. cbn [fst]. rewrite Hdb.
    destruct (databases st) as [|db dbs]; [done|]. csimpl.
    by destruct (screen st1), (selectedConnection st1). }
  split; [done|]. rewrite Hsel.
  destruct T as [|n T'] eqn:ET.
  - split; [done|]. done.
  - assert (Hb : negb (truthy (trim q)) = false).
    { destruct (negb (truthy (trim q))) eqn:E; [|done].
      apply truthy_trim_false in E. congruence. }
    unfold V1.handleExecute. cbn [length Nat.eqb]. rewrite Hb.
    unfold andThen. simpl. by rewrite Hc, Hn.
Qed.

Lemma V1_rerun_after_errors_only_witness :
  let st : AppState V1.DatabaseStatus :=
    {| screen := execution_screen; connections := [Sample.local];
       databases := [Sample.db "db1" true; Sample.db "db2" true];
       selectedConnectionId := Some (conn_id Sample.local);
       executionData := Some (js "SELECT 1", [js "db1"; js "db2"]);
       isReturnModalOpen := true;
       lastExecutionResults :=
         Some [ {| V1.name := js "db1"; V1.status := success;
                   V1.log := None; V1.result := None |};
                {| V1.name := js "db2"; V1.status := error;
                   V1.log := Some (js "timeout"); V1.result := None |} ];
       query := []; notification := None |} in
  let rs :=
    [ {| V1.name := js "db1"; V1.status := success;
         V1.log := None; V1.result := None |};
      {| V1.name := js "db2"; V1.status := error;
         V1.log := Some (js "timeout"); V1.result := None |} ] in
  let fl := {| isLoadingDatabases := false; dbError := None |} in
  let q := js "SELECT 1" in
  let st1 := (V1.handleReturnSelectErrors st).1 in
  let T :=
    filter (fun n => n ∈ V1.errorDbNames rs) (db_name <$> databases st) in
  V1Loader.loaderEffect (V1Loader.loaderDeps st) (st1, fl) = ((st1, fl), [])
  /\ selectedDbs (databases st1) = T
  /\ (V1.handleExecute q (selectedDbs (databases st1)) none st1).2
     = match T with
       | [] => [SetTimeout 3000]
       | _ :: _ =>
           [Invoke (V1.execute_query_on_databases (selectedConnection st)
                      T q none)]
       end
  /\ notification
       (V1.handleExecute q (selectedDbs (databases st1)) none st1).1
     = match T with
       | [] => Some V1.noDatabaseMessage
       | _ :: _ => notification st
       end.
Proof.
  intros st rs fl q.
  apply (V1_rerun_after_errors_only st rs q none fl (V1Loader.loaderDeps st)).
  - reflexivity.
  - discriminate.
  - reflexivity.
Defined.
